(** * LocalFileShare: the browser application of the LAN file-sharing tool

    A shallow embedding of [script.js] (class [LocalFileShare]) together
    with a model of the file registry it talks to over HTTP, and the
    properties of the design document checked against them.

    Layout: Part I holds the definitions (JavaScript primitives, the
    registry, the application), Part II the lemmas and theorems. *)

From Stdlib Require Import String Ascii List Bool NArith ZArith Lia.
From Stdlib Require Import DecimalString DecimalPos DecimalN Permutation.
From Stdlib Require Import SpecFloat.
Import ListNotations.
Local Open Scope string_scope.
Local Open Scope N_scope.

(* ===================================================================== *)
(** * Part I.  Definitions *)
(* ===================================================================== *)

(* --------------------------------------------------------------------- *)
(** ** JavaScript strings *)
(* --------------------------------------------------------------------- *)

(** [s.endsWith(t)]: some suffix of [s] is [t]. *)
Fixpoint endsWith (s t : string) : bool :=
  String.eqb s t ||
  match s with
  | EmptyString => false
  | String _ s' => endsWith s' t
  end.

(** [s.startsWith(t)]. *)
Definition startsWith (s t : string) : bool := String.prefix t s.

(** [s.includes(t)]: [t] occurs somewhere in [s]. *)
Fixpoint includes (s t : string) : bool :=
  String.prefix t s ||
  match s with
  | EmptyString => false
  | String _ s' => includes s' t
  end.

(** [s.substr(start, len)] for non-negative [start]; JavaScript clips at
    the end of the string, as [String.substring] does. *)
Definition substr (start len : nat) (s : string) : string :=
  String.substring start len s.

(** White space removed by [trim] (the ASCII part of it). *)
Definition is_space (c : ascii) : bool :=
  match c with
  | " "%char | "009"%char | "010"%char | "011"%char | "012"%char
  | "013"%char => true
  | _ => false
  end.

Fixpoint trimStart (s : string) : string :=
  match s with
  | String c s' => if is_space c then trimStart s' else s
  | EmptyString => EmptyString
  end.

Fixpoint trimEnd (s : string) : string :=
  match s with
  | EmptyString => EmptyString
  | String c s' =>
      match trimEnd s' with
      | EmptyString => if is_space c then EmptyString else String c EmptyString
      | r => String c r
      end
  end.

(** [s.trim()]. *)
Definition trim (s : string) : string := trimEnd (trimStart s).

Definition lower_ascii (c : ascii) : ascii :=
  let n := nat_of_ascii c in
  if (Nat.leb 65 n && Nat.leb n 90)%bool then ascii_of_nat (n + 32) else c.

(** [s.toLowerCase()] on ASCII text. *)
Fixpoint toLowerCase (s : string) : string :=
  match s with
  | EmptyString => EmptyString
  | String c s' => String (lower_ascii c) (toLowerCase s')
  end.

Definition is_digit (c : ascii) : bool :=
  let n := nat_of_ascii c in (Nat.leb 48 n && Nat.leb n 57)%bool.

(** Decimal text of a non-negative integer, as string conversion of an
    integral Number gives it. *)
Definition N_toString (n : N) : string := NilZero.string_of_uint (N.to_uint n).

Definition Z_toString (z : Z) : string := NilZero.string_of_int (Z.to_int z).

(* --------------------------------------------------------------------- *)
(** ** formatFileSize *)
(* --------------------------------------------------------------------- *)

(** [const k = 1024] *)
Definition k : N := 1024.

(** [const sizes = ['Bytes', 'KB', 'MB', 'GB', 'TB']] *)
Definition sizes : list string := ["Bytes"; "KB"; "MB"; "GB"; "TB"].

(** [Math.floor(Math.log(bytes) / Math.log(k))] for an integral
    [bytes >= 1], taken at its mathematical value: the largest [i] with
    [k^i <= bytes].  [k] is a power of two, so this is
    [floor(log2 bytes) / log2 k]. *)
Definition log_floor (base bytes : N) : N := N.log2 bytes / N.log2 base.

(** [x.toFixed(2)] for [x = num / den]: the integer [n] for which
    [n / 100 - x] is closest to zero, the larger one on a tie. The digits
    printed are those of [n], with a point before the last two. *)
Definition toFixed2 (num den : N) : N := (200 * num + den) / (2 * den).

(** [parseFloat(s) + ''] where [s] is the two-decimal text of
    [n / 100]: the Number prints with its trailing zeros (and a bare
    point) dropped. *)
Definition hundredths_toString (n : N) : string :=
  let whole := N_toString (n / 100) in
  let frac := n mod 100 in
  if frac =? 0 then whole
  else if frac mod 10 =? 0 then whole ++ "." ++ N_toString (frac / 10)
  else whole ++ "." ++ N_toString (frac / 10) ++ N_toString (frac mod 10).

(** [sizes[i]] inside a string concatenation: an index past the end of
    the array reads [undefined], which concatenates as "undefined". *)
Definition sizes_at (i : N) : string :=
  match nth_error sizes (N.to_nat i) with
  | Some u => u
  | None => "undefined"
  end.

(** [formatFileSize(bytes)] on a byte count (a non-negative integer). *)
Definition formatFileSize (bytes : N) : string :=
  if bytes =? 0 then "0 Bytes"
  else
    let i := log_floor k bytes in
    hundredths_toString (toFixed2 bytes (k ^ i)) ++ " " ++ sizes_at i.

(* --------------------------------------------------------------------- *)
(** ** JavaScript numbers *)
(* --------------------------------------------------------------------- *)

(** A Number is an IEEE 754 binary64 value; [SpecFloat] gives its
    arithmetic exactly (precision 53, maximal exponent 1024). *)
Definition Number : Type := spec_float.

Definition prec : Z := 53.
Definition emax : Z := 1024.

Definition NaN : Number := S754_nan.

(** The Number nearest to an integer. *)
Definition Number_of_Z (z : Z) : Number := binary_normalize prec emax z 0 false.
Definition Number_of_N (n : N) : Number := Number_of_Z (Z.of_N n).

(** [x / y] and [x * y]. *)
Definition js_div (x y : Number) : Number := SFdiv prec emax x y.
Definition js_mul (x y : Number) : Number := SFmul prec emax x y.

(** What [Math.round] can return, kept apart by how it prints. *)
Inductive Rounded : Type :=
| RNaN
| RInfinity (negative : bool)
| RInt (z : Z).

(** [Math.round(x)]: the integer closest to [x], the larger one on a tie:
    [floor(x + 1/2)] computed exactly. *)
Definition Math_round (x : Number) : Rounded :=
  match x with
  | S754_nan => RNaN
  | S754_infinity s => RInfinity s
  | S754_zero _ => RInt 0
  | S754_finite s m e =>
      let sm := if s then Z.neg m else Z.pos m in
      match e with
      | Z.neg p => RInt ((2 * sm + 2 ^ Z.pos p) / 2 ^ (Z.pos p + 1))
      | _ => RInt (sm * 2 ^ e)
      end
  end%Z.

(** String conversion of a [Math.round] result. *)
Definition Rounded_toString (r : Rounded) : string :=
  match r with
  | RNaN => "NaN"
  | RInfinity false => "Infinity"
  | RInfinity true => "-Infinity"
  | RInt z => Z_toString z
  end.

(** The longest prefix of decimal digits, and what follows it. *)
Fixpoint take_digits (s : string) : string :=
  match s with
  | String c s' => if is_digit c then String c (take_digits s') else EmptyString
  | EmptyString => EmptyString
  end.

(** [parseInt(s, 10)] where [s] is a header value or [null]: leading
    white space and one sign are skipped, the digits that follow are read,
    and no digit at all (as in [parseInt(null)]) gives [NaN]. *)
Definition parseInt (s : option string) : Number :=
  match s with
  | None => NaN
  | Some str =>
      let t := trimStart str in
      let '(neg, body) :=
        match t with
        | String "-"%char r => (true, r)
        | String "+"%char r => (false, r)
        | _ => (false, t)
        end in
      match take_digits body with
      | EmptyString => NaN
      | ds =>
          match NilEmpty.uint_of_string ds with
          | Some d =>
              let n := Z.of_N (N.of_uint d) in
              Number_of_Z (if neg then Z.opp n else n)
          | None => NaN
          end
      end
  end.

(* --------------------------------------------------------------------- *)
(** ** JavaScript Map *)
(* --------------------------------------------------------------------- *)

(** A [Map] with string keys: entries in insertion order, one per key. *)
Definition JSMap (V : Type) : Type := list (string * V).

Section JSMapOps.
Context {V : Type}.

Fixpoint map_get (key : string) (m : JSMap V) : option V :=
  match m with
  | [] => None
  | (k', v) :: m' => if String.eqb k' key then Some v else map_get key m'
  end.

Definition map_has (key : string) (m : JSMap V) : bool :=
  match map_get key m with Some _ => true | None => false end.

(** [m.set(key, v)]: an existing key keeps its place, a new one goes last. *)
Fixpoint map_set (key : string) (v : V) (m : JSMap V) : JSMap V :=
  match m with
  | [] => [(key, v)]
  | (k', v') :: m' =>
      if String.eqb k' key then (k', v) :: m' else (k', v') :: map_set key v m'
  end.

(** [m.delete(key)]. *)
Fixpoint map_delete (key : string) (m : JSMap V) : JSMap V :=
  match m with
  | [] => []
  | (k', v') :: m' =>
      if String.eqb k' key then map_delete key m' else (k', v') :: map_delete key m'
  end.

(** [m.size]. *)
Definition map_size (m : JSMap V) : nat := List.length m.

Definition map_keys (m : JSMap V) : list string := List.map fst m.
End JSMapOps.


(* --------------------------------------------------------------------- *)
(** ** Files and HTTP messages *)
(* --------------------------------------------------------------------- *)

Definition bytes : Type := list Byte.byte.

(** A browser [File]: [name], [type] and the content; [size] is the
    length of the content. *)
Record File : Type := mkFile {
  file_name : string;
  file_type : string;
  file_bytes : bytes
}.

Definition file_size (f : File) : N := N.of_nat (List.length (file_bytes f)).

Inductive Method : Type := GET | POST | DELETE.

(** The multipart form of an upload: parts [file] and [fileId]. *)
Record FormData : Type := mkForm {
  form_file : option File;
  form_fileId : option string
}.

(** A [fetch] call: URL, method and body, and the abort signal (the only
    way to bound the time a [fetch] may take), in milliseconds. *)
Record Request : Type := mkRequest {
  req_method : Method;
  req_url : string;
  req_body : option FormData;
  req_signal : option N
}.

(** One entry of the listing, [{id, name, size, type}]. *)
Record FileMeta : Type := mkMeta {
  meta_id : string;
  meta_name : string;
  meta_size : N;
  meta_type : string
}.

(** A JSON object as the application reads it: its [files] and
    [server_url] members, each possibly absent. *)
Record Json : Type := mkJson {
  json_files : option (list FileMeta);
  json_server_url : option string
}.

(** An HTTP response: status, the headers of a download, the body as the
    chunks a stream reader obtains ([complete] is false when the stream
    breaks after them), and what the body parses to as JSON, if it does.
    The text of a JSON body is not detailed. *)
Record Response : Type := mkResponse {
  status : N;
  content_length : option string;
  content_type : option string;
  content_disposition : option string;
  chunks : list bytes;
  complete : bool;
  parsed : option Json
}.

(** [response.ok] *)
Definition ok (r : Response) : bool := (200 <=? status r) && (status r <? 300).

(** How a [fetch] promise ends: fulfilled, rejected, or never settled. *)
Inductive FetchOutcome : Type :=
| Resolved (r : Response)
| Rejected (message : string)
| Pending.

(* --------------------------------------------------------------------- *)
(** ** The file registry *)
(* --------------------------------------------------------------------- *)

Module Registry.

(** Modelled from the spec: the registry server ([server.py]) is not
    among the sources; its data model and operations are those of the
    design document (sections 3, 4.1, 6 and 7). *)
Record SharedFile : Type := mkShared {
  id : string;
  name : string;
  mimeType : string;
  size : N;
  content : bytes
}.

(** Modelled from the spec: the state the registry server owns. The
    catalog is kept in insertion order; [issued] counts the identifiers
    given out so far, [capacity] is the storage available for content and
    [base_url] the address resolved at startup. *)
Record State : Type := mkState {
  catalog : list SharedFile;
  issued : N;
  capacity : N;
  base_url : string
}.

(** Modelled from the spec: why an upload is refused. *)
Inductive UploadCause : Type := EmptyBody | StorageExhausted | Malformed.

(** Modelled from the spec: the error taxonomy of section 7, server side. *)
Inductive Error : Type :=
| UploadError (cause : UploadCause)
| NotFoundError.

(** Modelled from the spec: a registry that has just started. *)
Definition start (cap : N) (url : string) : State :=
  mkState [] 0 cap url.

(** Modelled from the spec: the identifier the registry generates for
    its [n]-th upload. *)
Definition new_id (n : N) : string := N_toString n.

(** Modelled from the spec: the storage taken by the content held. *)
Definition used (r : State) : N :=
  fold_right (fun f acc => size f + acc) 0 (catalog r).

(** Modelled from the spec: the catalog as a mapping from id to file. *)
Definition lookup (i : string) (r : State) : option SharedFile :=
  find (fun f => String.eqb (id f) i) (catalog r).

(** Modelled from the spec: Upload(fileBytes, filename, mimeType) -> id.
    The server generates the id; nothing the client suggests enters. *)
Definition Upload (fileBytes : option bytes) (filename : option string)
    (mime : string) (r : State) : State * (Error + string) :=
  match fileBytes, filename with
  | Some [], _ => (r, inl (UploadError EmptyBody))
  | Some b, Some n =>
      let sz := N.of_nat (List.length b) in
      if capacity r <? used r + sz
      then (r, inl (UploadError StorageExhausted))
      else
        let i := new_id (issued r) in
        (mkState (catalog r ++ [mkShared i n mime sz b])
                 (issued r + 1) (capacity r) (base_url r),
         inr i)
  | _, _ => (r, inl (UploadError Malformed))
  end.

(** Modelled from the spec: ListCatalog() -> sequence of
    {id, name, size, mimeType}; never fails. *)
Definition ListCatalog (r : State) : list FileMeta :=
  List.map (fun f => mkMeta (id f) (name f) (size f) (mimeType f)) (catalog r).

(** Modelled from the spec: Download(id) -> byte stream + metadata. *)
Definition Download (i : string) (r : State) : Error + SharedFile :=
  match lookup i r with
  | Some f => inr f
  | None => inl NotFoundError
  end.

(** Modelled from the spec: Remove(id). *)
Definition Remove (i : string) (r : State) : State * (Error + unit) :=
  match lookup i r with
  | Some _ =>
      (mkState (filter (fun f => negb (String.eqb (id f) i)) (catalog r))
               (issued r) (capacity r) (base_url r),
       inr tt)
  | None => (r, inl NotFoundError)
  end.

(** Modelled from the spec: NetworkInfo() -> address. *)
Definition NetworkInfo (r : State) : string := base_url r.

(** Modelled from the spec: the path of a request URL, which is what
    follows scheme and authority; the registry serves whichever address
    reaches it. *)
Fixpoint from_slash (s : string) : string :=
  match s with
  | EmptyString => "/"
  | String "/"%char _ => s
  | String _ s' => from_slash s'
  end.

(** Modelled from the spec: [s] without its prefix [p], for routes
    with an id. *)
Fixpoint strip_prefix (p s : string) : option string :=
  match p, s with
  | EmptyString, _ => Some s
  | String a p', String b s' => if Ascii.eqb a b then strip_prefix p' s' else None
  | String _ _, EmptyString => None
  end.

(** Modelled from the spec: the route of an absolute or relative URL. *)
Definition path_of (url : string) : string :=
  match strip_prefix "http://" url, strip_prefix "https://" url with
  | Some r, _ => from_slash r
  | None, Some r => from_slash r
  | None, None => url
  end.

(** Modelled from the spec: an answer without a body. *)
Definition plain (st : N) : Response :=
  mkResponse st None None None [] true None.

(** Modelled from the spec: an answer with a JSON body. *)
Definition json_response (j : Json) : Response :=
  mkResponse 200 None (Some "application/json") None [] true (Some j).

(** Modelled from the spec: 4xx for client mistakes, 5xx for server
    faults such as storage failure. *)
Definition error_status (e : Error) : N :=
  match e with
  | UploadError StorageExhausted => 507
  | UploadError _ => 400
  | NotFoundError => 404
  end.

(** Modelled from the spec: the HTTP endpoints of section 6. The body
    of a download reaches the reader cut into chunks by [chunking]. *)
Definition serve (chunking : bytes -> list bytes) (q : Request) (r : State)
    : State * Response :=
  let p := path_of (req_url q) in
  match req_method q with
  | GET =>
      if String.eqb p "/api/network-info"
      then (r, json_response (mkJson None (Some (NetworkInfo r))))
      else if String.eqb p "/api/files"
      then (r, json_response (mkJson (Some (ListCatalog r)) None))
      else
        match strip_prefix "/api/download/" p with
        | Some i =>
            match Download i r with
            | inr f =>
                (r, mkResponse 200 (Some (N_toString (size f)))
                      (Some (mimeType f))
                      (Some ("attachment; filename=" ++ name f))
                      (chunking (content f)) true None)
            | inl e => (r, plain (error_status e))
            end
        | None => (r, plain 404)
        end
  | POST =>
      if String.eqb p "/api/upload"
      then
        match req_body q with
        | None => (r, plain (error_status (UploadError EmptyBody)))
        | Some form =>
            let file := form_file form in
            let '(r', res) :=
              Upload (option_map file_bytes file)
                     (match file with
                      | Some f => if String.eqb (file_name f) "" then None
                                  else Some (file_name f)
                      | None => None
                      end)
                     (match file with Some f => file_type f | None => "" end)
                     r in
            match res with
            | inr _ => (r', plain 200)
            | inl e => (r', plain (error_status e))
            end
        end
      else (r, plain 404)
  | DELETE =>
      match strip_prefix "/api/remove-file/" p with
      | Some i =>
          let '(r', res) := Remove i r in
          match res with
          | inr _ => (r', plain 200)
          | inl e => (r', plain (error_status e))
          end
      | None => (r, plain 404)
      end
  end.

(** Modelled from the spec: the registry as the far end of [fetch];
    it always answers. *)
Definition net (chunking : bytes -> list bytes) (q : Request) (r : State)
    : State * FetchOutcome :=
  let '(r', resp) := serve chunking q r in (r', Resolved resp).

End Registry.

(* --------------------------------------------------------------------- *)
(** ** The page and the application object *)
(* --------------------------------------------------------------------- *)

(** The pictograms of [getFileIcon]. *)
Inductive Icon : Type :=
| PictureIcon | FilmIcon | MusicIcon | PageIcon | MemoIcon | PackageIcon
| FolderIcon.

(** A child of [#fileList]: what [createFileItem] renders. *)
Record FileItem : Type := mkItem {
  item_icon : Icon;
  item_name : string;
  item_size : string;
  item_id : string
}.

(** The children of [#availableFiles]. *)
Inductive Available : Type :=
| AvailableHeading
| AvailableFile (icon : Icon) (name size id : string)
| NoFilesNote
| LoadErrorNote.

(** A child of [#progressList]: file name, the id in the element ids
    [progress-<id>] and [fill-<id>], the text and the bar width. *)
Record ProgressItem : Type := mkProgress {
  progress_name : string;
  progress_id : string;
  progress_text : string;
  progress_width : string
}.

(** The part of the document the application writes. A status element
    holds its text and its type class. [shareUrl] is the value shown in
    [#shareInfo], [None] while that block is hidden. [toasts] lists the
    toasts in the order shown. *)
Record DOM : Type := mkDOM {
  networkStatus : string * string;
  serverUrlText : string;
  connectionStatus : string * string;
  hostUrlInput : string;
  fileList : list FileItem;
  shareUrl : option string;
  availableFiles : list Available;
  progressList : list ProgressItem;
  toasts : list (string * string)
}.

(** What the page does to the world outside it. [ChanSend] is
    [dataChannel.send]. [Progress] records one write of a percentage
    into a progress element. *)
Inductive Effect : Type :=
| Fetch (q : Request)
| Navigate (url : string)
| Save (name : string) (blob : bytes)
| ChanCreate (label : string)
| ChanSend (data : string)
| Progress (fileId : string) (percent : Rounded)
| Console (message : string).

(** Callbacks handed to [setTimeout] and not yet run. *)
Inductive Timer : Type :=
| DetectTimeout
| ToastLater (message kind : string).

(** The fields of [LocalFileShare], the browser state it reads
    ([navigator.userAgent], the count of [Math.random] calls so far), the
    document and the trace of effects. [currentHostUrl] is [None] for
    [null]. *)
Record App : Type := mkApp {
  isHost : bool;
  files : JSMap File;
  serverPort : N;
  serverUrl : string;
  currentHostUrl : option string;
  dataChannel : bool;
  userAgent : string;
  draws : nat;
  dom : DOM;
  timers : list Timer;
  log : list Effect
}.

Definition empty_dom : DOM :=
  mkDOM ("", "") "" ("", "") "" [] None [] [] [].

(** The object after the field initialisers of the constructor. *)
Definition new_app (ua : string) : App :=
  mkApp true [] 8080 "" None false ua 0 empty_dom [] [].

Definition set_isHost (b : bool) (a : App) : App :=
  mkApp b (files a) (serverPort a) (serverUrl a) (currentHostUrl a)
        (dataChannel a) (userAgent a) (draws a) (dom a) (timers a) (log a).
Definition set_files (m : JSMap File) (a : App) : App :=
  mkApp (isHost a) m (serverPort a) (serverUrl a) (currentHostUrl a)
        (dataChannel a) (userAgent a) (draws a) (dom a) (timers a) (log a).
Definition set_serverUrl (u : string) (a : App) : App :=
  mkApp (isHost a) (files a) (serverPort a) u (currentHostUrl a)
        (dataChannel a) (userAgent a) (draws a) (dom a) (timers a) (log a).
Definition set_currentHostUrl (u : option string) (a : App) : App :=
  mkApp (isHost a) (files a) (serverPort a) (serverUrl a) u
        (dataChannel a) (userAgent a) (draws a) (dom a) (timers a) (log a).
Definition set_dataChannel (b : bool) (a : App) : App :=
  mkApp (isHost a) (files a) (serverPort a) (serverUrl a) (currentHostUrl a)
        b (userAgent a) (draws a) (dom a) (timers a) (log a).
Definition set_draws (n : nat) (a : App) : App :=
  mkApp (isHost a) (files a) (serverPort a) (serverUrl a) (currentHostUrl a)
        (dataChannel a) (userAgent a) n (dom a) (timers a) (log a).
Definition set_dom (d : DOM) (a : App) : App :=
  mkApp (isHost a) (files a) (serverPort a) (serverUrl a) (currentHostUrl a)
        (dataChannel a) (userAgent a) (draws a) d (timers a) (log a).
Definition set_timers (t : list Timer) (a : App) : App :=
  mkApp (isHost a) (files a) (serverPort a) (serverUrl a) (currentHostUrl a)
        (dataChannel a) (userAgent a) (draws a) (dom a) t (log a).
Definition set_log (l : list Effect) (a : App) : App :=
  mkApp (isHost a) (files a) (serverPort a) (serverUrl a) (currentHostUrl a)
        (dataChannel a) (userAgent a) (draws a) (dom a) (timers a) l.

Definition emit (e : Effect) (a : App) : App := set_log (log a ++ [e]) a.

Definition set_networkStatus (v : string * string) (d : DOM) : DOM :=
  mkDOM v (serverUrlText d) (connectionStatus d) (hostUrlInput d) (fileList d)
        (shareUrl d) (availableFiles d) (progressList d) (toasts d).
Definition set_serverUrlText (v : string) (d : DOM) : DOM :=
  mkDOM (networkStatus d) v (connectionStatus d) (hostUrlInput d) (fileList d)
        (shareUrl d) (availableFiles d) (progressList d) (toasts d).
Definition set_connectionStatus (v : string * string) (d : DOM) : DOM :=
  mkDOM (networkStatus d) (serverUrlText d) v (hostUrlInput d) (fileList d)
        (shareUrl d) (availableFiles d) (progressList d) (toasts d).
Definition set_hostUrlInput (v : string) (d : DOM) : DOM :=
  mkDOM (networkStatus d) (serverUrlText d) (connectionStatus d) v (fileList d)
        (shareUrl d) (availableFiles d) (progressList d) (toasts d).
Definition set_fileList (v : list FileItem) (d : DOM) : DOM :=
  mkDOM (networkStatus d) (serverUrlText d) (connectionStatus d)
        (hostUrlInput d) v (shareUrl d) (availableFiles d) (progressList d)
        (toasts d).
Definition set_shareUrl (v : option string) (d : DOM) : DOM :=
  mkDOM (networkStatus d) (serverUrlText d) (connectionStatus d)
        (hostUrlInput d) (fileList d) v (availableFiles d) (progressList d)
        (toasts d).
Definition set_availableFiles (v : list Available) (d : DOM) : DOM :=
  mkDOM (networkStatus d) (serverUrlText d) (connectionStatus d)
        (hostUrlInput d) (fileList d) (shareUrl d) v (progressList d)
        (toasts d).
Definition set_progressList (v : list ProgressItem) (d : DOM) : DOM :=
  mkDOM (networkStatus d) (serverUrlText d) (connectionStatus d)
        (hostUrlInput d) (fileList d) (shareUrl d) (availableFiles d) v
        (toasts d).
Definition set_toasts (v : list (string * string)) (d : DOM) : DOM :=
  mkDOM (networkStatus d) (serverUrlText d) (connectionStatus d)
        (hostUrlInput d) (fileList d) (shareUrl d) (availableFiles d)
        (progressList d) v.

(* --------------------------------------------------------------------- *)
(** ** Pure helpers of the class *)
(* --------------------------------------------------------------------- *)

(** [generateId()]: [Math.random().toString(36).substr(2, 9)], given the
    base-36 text [r] of the number drawn ("0." and its digits, or "0"). *)
Definition generateId (r : string) : string := substr 2 9 r.

(** [getFileIcon(mimeType)] *)
Definition getFileIcon (mime : string) : Icon :=
  if startsWith mime "image/" then PictureIcon
  else if startsWith mime "video/" then FilmIcon
  else if startsWith mime "audio/" then MusicIcon
  else if includes mime "pdf" then PageIcon
  else if includes mime "text/" || includes mime "document" then MemoIcon
  else if includes mime "zip" || includes mime "rar" then PackageIcon
  else FolderIcon.

(** [createFileItem(file, fileId)] *)
Definition createFileItem (file : File) (fileId : string) : FileItem :=
  mkItem (getFileIcon (file_type file)) (file_name file)
         (formatFileSize (file_size file)) fileId.

(** A null or empty [currentHostUrl] is falsy. *)
Definition truthy (u : option string) : option string :=
  match u with
  | Some EmptyString => None
  | other => other
  end.

(** The URL probed by [connectToHost]. *)
Definition testUrl (hostUrl : string) : string :=
  if endsWith hostUrl "/" then hostUrl ++ "api/files" else hostUrl ++ "/api/files".

(** The URL fetched by [loadAvailableFiles]. *)
Definition filesUrl (current : option string) : string :=
  match truthy current with
  | Some u => if endsWith u "/" then u ++ "api/files" else u ++ "/api/files"
  | None => "/api/files"
  end.

(** The URL fetched (or navigated to) by [downloadFile]. *)
Definition downloadUrl (current : option string) (fileId : string) : string :=
  match truthy current with
  | Some u =>
      if endsWith u "/" then u ++ "api/download/" ++ fileId
      else u ++ "/api/download/" ++ fileId
  | None => "/api/download/" ++ fileId
  end.

(** [/mobile|android|iphone|ipad/.test(userAgent.toLowerCase())] *)
Definition isMobile (ua : string) : bool :=
  let u := toLowerCase ua in
  includes u "mobile" || includes u "android" || includes u "iphone"
  || includes u "ipad".

Fixpoint drop_digits (s : string) : string :=
  match s with
  | String c s' => if is_digit c then drop_digits s' else s
  | EmptyString => EmptyString
  end.

(** One [\d+] at the head of [s]: the digits and the rest. *)
Definition digits1 (s : string) : option (string * string) :=
  match take_digits s with
  | EmptyString => None
  | ds => Some (ds, drop_digits s)
  end.

(** [\d+\.] at the head of [s]. *)
Definition digits_dot (s : string) : option (string * string) :=
  match digits1 s with
  | Some (ds, String "."%char r) => Some (ds ++ ".", r)
  | _ => None
  end.

(** [\d+\.\d+\.\d+\.\d+] anchored at the head of [s]. Digits and the
    point exclude each other, so the greedy groups never back off. *)
Definition ipv4_here (s : string) : option string :=
  match digits_dot s with
  | Some (a, r1) =>
      match digits_dot r1 with
      | Some (b, r2) =>
          match digits_dot r2 with
          | Some (c, r3) =>
              match digits1 r3 with
              | Some (d, _) => Some (a ++ b ++ c ++ d)
              | None => None
              end
          | None => None
          end
      | None => None
      end
  | None => None
  end.

(** [candidate.match(/(\d+\.\d+\.\d+\.\d+)/)]: group 1 of the leftmost
    match, if there is one. *)
Fixpoint ipMatch (candidate : string) : option string :=
  match ipv4_here candidate with
  | Some ip => Some ip
  | None =>
      match candidate with
      | EmptyString => None
      | String _ s' => ipMatch s'
      end
  end.

(** [showToast(message, type)] *)
Definition showToast (message kind : string) (a : App) : App :=
  set_dom (set_toasts (toasts (dom a) ++ [(message, kind)]) (dom a)) a.

(** [updateNetworkStatus(message, type)] *)
Definition updateNetworkStatus (message kind : string) (a : App) : App :=
  let d := set_networkStatus (message, kind) (dom a) in
  let d' :=
    match serverUrl a with
    | EmptyString => d
    | url => set_serverUrlText ("Server URL: " ++ url) d
    end in
  set_dom d' a.

(** [showConnectionStatus(message, type)] *)
Definition showConnectionStatus (message kind : string) (a : App) : App :=
  set_dom (set_connectionStatus (message, kind) (dom a)) a.

(** [updateShareInfo()]; drawing the QR code is left to its library. *)
Definition updateShareInfo (a : App) : App :=
  let shown :=
    match map_size (files a), serverUrl a with
    | O, _ => None
    | _, EmptyString => None
    | _, url => Some url
    end in
  set_dom (set_shareUrl shown (dom a)) a.

(** [updateFileList()] *)
Definition updateFileList (a : App) : App :=
  set_dom
    (set_fileList (List.map (fun '(fileId, file) => createFileItem file fileId)
                            (files a))
                  (dom a))
    a.

Definition appendFileItem (item : FileItem) (a : App) : App :=
  set_dom (set_fileList (fileList (dom a) ++ [item]) (dom a)) a.

Definition appendProgressItem (item : ProgressItem) (a : App) : App :=
  set_dom (set_progressList (progressList (dom a) ++ [item]) (dom a)) a.

Definition localhostUrl (a : App) : string :=
  "http://localhost:" ++ N_toString (serverPort a).

(** The body of a [setTimeout] callback. [DetectTimeout] is the one of
    [detectNetworkInfo] ("Timeout after 5 seconds"). *)
Definition run_timer (t : Timer) (a : App) : App :=
  match t with
  | DetectTimeout =>
      updateNetworkStatus "Using localhost - network detection failed" "warning"
        (set_serverUrl (localhostUrl a) a)
  | ToastLater message kind => showToast message kind a
  end.

Definition add_timer (t : Timer) (a : App) : App :=
  set_timers (timers a ++ [t]) a.

(** [document.getElementById('progress-' + fileId)] and
    [... 'fill-' + fileId]: the first progress item carrying the id. *)
Fixpoint set_progress (fileId text : string) (items : list ProgressItem)
    : option (list ProgressItem) :=
  match items with
  | [] => None
  | it :: rest =>
      if String.eqb (progress_id it) fileId
      then Some (mkProgress (progress_name it) fileId text text :: rest)
      else option_map (cons it) (set_progress fileId text rest)
  end.

(** The "Update progress" step of [pump]. *)
Definition write_progress (fileId : string) (progress : Rounded) (a : App) : App :=
  let text := Rounded_toString progress ++ "%" in
  match set_progress fileId text (progressList (dom a)) with
  | Some items =>
      emit (Progress fileId progress) (set_dom (set_progressList items (dom a)) a)
  | None => a
  end.

(** [Math.round((loaded / total) * 100)] *)
Definition percent (loaded : N) (total : Number) : Rounded :=
  Math_round (js_mul (js_div (Number_of_N loaded) total) (Number_of_N 100)).

(** [pump()] over the chunks the reader yields: [loaded] accumulates the
    chunk lengths (byte counts stay far below 2^53, where Number addition
    of integers is exact). *)
Fixpoint pump (fileId : string) (total : Number) (loaded : N)
    (values : list bytes) (a : App) : App :=
  match values with
  | [] => a
  | value :: rest =>
      let loaded' := loaded + N.of_nat (List.length value) in
      pump fileId total loaded' rest
           (write_progress fileId (percent loaded' total) a)
  end.

(** The first ICE candidate in which the regular expression finds an
    address. *)
Fixpoint first_ip (candidates : list string) : option string :=
  match candidates with
  | [] => None
  | c :: rest =>
      match ipMatch c with
      | Some ip => Some ip
      | None => first_ip rest
      end
  end.

(* --------------------------------------------------------------------- *)
(** ** Asynchronous methods *)
(* --------------------------------------------------------------------- *)

(** How a call of an async method ends: it returns, it throws (the
    promise is rejected), or it stays parked at an [await] that never
    settles. The state reached comes with each. A call is followed from
    its start to that end; listeners that run while it waits are not
    interleaved with it. *)
Inductive Res (S A : Type) : Type :=
| Ok (a : A) (s : S)
| Throw (error : string) (s : S)
| Hang (s : S).
Arguments Ok {S A} a s.
Arguments Throw {S A} error s.
Arguments Hang {S A} s.

Definition state_of {S A : Type} (r : Res S A) : S :=
  match r with
  | Ok _ s => s
  | Throw _ s => s
  | Hang s => s
  end.

Definition returned {S A : Type} (r : Res S A) : bool :=
  match r with Ok _ _ => true | _ => false end.

Definition hangs {S A : Type} (r : Res S A) : bool :=
  match r with Hang _ => true | _ => false end.

(** The WebRTC stack met by the page: absent, failing to make an offer,
    or delivering these candidate lines to [onicecandidate] before the
    five seconds are over. *)
Inductive Rtc : Type :=
| RtcUnavailable
| RtcOfferFails
| RtcCandidates (candidates : list string).

(** What [JSON.parse] makes of the text of a channel message: it
    throws, or gives [null], or a value whose [type] member is this string
    ([None] when it has none). *)
Inductive Parsed : Type :=
| ParseError
| ParsedNull
| ParsedObject (type : option string).

(** What can happen to the page once it is loaded: the user acts, a
    message arrives on the data channel, or the oldest pending timer runs.
    (Copying the URL and the QR scanner touch neither the network nor the
    file map and are left out.) *)
Inductive Event : Type :=
| FilesChosen (fs : list File)
| RemoveClicked (fileId : string)
| ModeClicked (host : bool)
| HostUrlTyped (text : string)
| ConnectClicked
| DownloadClicked (fileId fileName : string)
| ChannelOpened
| ChannelMessage (message : Parsed)
| TimerFired.

Declare Scope js_scope.
Delimit Scope js_scope with js.

Section Methods.

(** The world behind [fetch] and how it answers a request. *)
Variable W : Type.
Variable net : Request -> W -> W * FetchOutcome.

(** The base-36 text of the [n]-th number [Math.random()] returns. *)
Variable random : nat -> string.

Variable rtc : Rtc.

Definition M (A : Type) : Type := App * W -> Res (App * W) A.

Definition ret {A : Type} (x : A) : M A := fun s => Ok x s.

Definition bind {A B : Type} (m : M A) (f : A -> M B) : M B :=
  fun s =>
    match m s with
    | Ok x s' => f x s'
    | Throw e s' => Throw e s'
    | Hang s' => Hang s'
    end.

Definition throw {A : Type} (e : string) : M A := fun s => Throw e s.

(** [try { m } catch (error) { handler error }] *)
Definition try_catch {A : Type} (m : M A) (handler : string -> M A) : M A :=
  fun s =>
    match m s with
    | Throw e s' => handler e s'
    | r => r
    end.

Definition modify (f : App -> App) : M unit :=
  fun s => Ok tt (f (fst s), snd s).

Definition gets {A : Type} (f : App -> A) : M A :=
  fun s => Ok (f (fst s)) s.

Notation "x <- m ;; f" := (bind m (fun x => f))
  (at level 61, m at next level, right associativity) : js_scope.
Notation "m ;; f" := (bind m (fun _ => f))
  (at level 61, right associativity) : js_scope.
Local Open Scope js_scope.

Definition console (message : string) : M unit := modify (emit (Console message)).

(** [await fetch(url, init)] *)
Definition fetch (q : Request) : M Response :=
  fun s =>
    let '(w', out) := net q (snd s) in
    let s' := (emit (Fetch q) (fst s), w') in
    match out with
    | Resolved r => Ok r s'
    | Rejected e => Throw e s'
    | Pending => Hang s'
    end.

(** [await response.json()] *)
Definition json (r : Response) : M Json :=
  if complete r then
    match parsed r with
    | Some j => ret j
    | None => throw "Unexpected token in JSON"
    end
  else throw "network error".

(** The first [try] block of [detectNetworkInfo]; [true] stands for
    its [return]. *)
Definition askServer : M bool :=
  try_catch
    (response <- fetch (mkRequest GET "/api/network-info" None None) ;;
     if ok response then
       networkInfo <- json response ;;
       modify (set_serverUrl
                 (match json_server_url networkInfo with
                  | Some u => u
                  | None => ""
                  end)) ;;
       modify (updateNetworkStatus "Connected to local network" "success") ;;
       ret true
     else ret false)
    (fun error =>
       console "Server network info not available, using WebRTC fallback" ;;
       ret false).

(** The second [try] block: the address is read off the first ICE
    candidate that shows one; the timer set next to the handler runs
    when none has by then, and stays behind otherwise. *)
Definition askWebRTC : M unit :=
  try_catch
    (match rtc with
     | RtcUnavailable => throw "RTCPeerConnection is not defined"
     | RtcOfferFails => throw "Failed to create offer"
     | RtcCandidates candidates =>
         match first_ip candidates with
         | Some localIP =>
             modify (fun a =>
               set_serverUrl
                 ("http://" ++ localIP ++ ":" ++ N_toString (serverPort a)) a) ;;
             modify (updateNetworkStatus "Connected to local network" "success") ;;
             modify (add_timer DetectTimeout)
         | None => modify (run_timer DetectTimeout)
         end
     end)
    (fun error =>
       console "Network detection failed:" ;;
       modify (updateNetworkStatus "Network detection failed - using localhost"
                                   "error") ;;
       modify (fun a => set_serverUrl (localhostUrl a) a)).

(** [detectNetworkInfo()] *)
Definition detectNetworkInfo : M unit :=
  done <- askServer ;;
  if done then ret tt else askWebRTC.

(** [setupPeerConnection()] *)
Definition setupPeerConnection : M unit :=
  match rtc with
  | RtcUnavailable => throw "RTCPeerConnection is not defined"
  | _ =>
      modify (emit (ChanCreate "fileTransfer")) ;;
      modify (set_dataChannel true)
  end.

(** [startHostMode()], with the simulated server start. *)
Definition startHostMode : M unit :=
  try_catch
    (modify (updateNetworkStatus "Server running - Ready to share files"
                                 "success") ;;
     modify updateShareInfo)
    (fun error =>
       console "Failed to start host mode:" ;;
       modify (updateNetworkStatus "Failed to start server" "error")).

(** [startClientMode()] *)
Definition startClientMode : M unit :=
  modify (updateNetworkStatus "Ready to connect to a host" "info") ;;
  modify (fun a =>
    set_dom (set_availableFiles []
               (set_connectionStatus ("", snd (connectionStatus (dom a)))
                  (dom a))) a).

(** [switchMode(isHost)] *)
Definition switchMode (host : bool) : M unit :=
  modify (set_isHost host) ;;
  if host then startHostMode else startClientMode.

(** [init()], after the listeners are in place. *)
Definition init : M unit :=
  detectNetworkInfo ;;
  setupPeerConnection ;;
  startHostMode.

(** [this.generateId()] on the next random number. *)
Definition nextId : M string :=
  fun s =>
    Ok (generateId (random (draws (fst s))))
       (set_draws (S (draws (fst s))) (fst s), snd s).

(** [uploadFileToServer(fileId, file)] *)
Definition uploadFileToServer (fileId : string) (file : File) : M unit :=
  try_catch
    (response <- fetch (mkRequest POST "/api/upload"
                          (Some (mkForm (Some file) (Some fileId))) None) ;;
     if ok response then
       console ("File uploaded: " ++ file_name file) ;;
       modify (showToast (file_name file ++ " uploaded and ready to share!")
                         "success")
     else
       console "Failed to upload file" ;;
       modify (showToast ("Failed to upload " ++ file_name file) "success"))
    (fun error =>
       console "Error uploading file:" ;;
       modify (showToast ("Error uploading " ++ file_name file) "success")).

(** The [for ... of] loop of [handleFiles]. *)
Fixpoint handleFiles_loop (fs : list File) : M unit :=
  match fs with
  | [] => ret tt
  | file :: rest =>
      fileId <- nextId ;;
      modify (fun a => set_files (map_set fileId file (files a)) a) ;;
      uploadFileToServer fileId file ;;
      modify (appendFileItem (createFileItem file fileId)) ;;
      handleFiles_loop rest
  end.

(** [handleFiles(files)] *)
Definition handleFiles (fs : list File) : M unit :=
  handleFiles_loop fs ;;
  modify updateShareInfo.

(** [removeFile(fileId)] *)
Definition removeFile (fileId : string) : M unit :=
  modify (fun a => set_files (map_delete fileId (files a)) a) ;;
  try_catch
    (response <- fetch (mkRequest DELETE ("/api/remove-file/" ++ fileId)
                          None None) ;;
     if ok response
     then modify (showToast "File removed successfully" "success")
     else ret tt)
    (fun error => console "Error removing file from server:") ;;
  modify updateFileList ;;
  modify updateShareInfo.

Definition availableFile (file : FileMeta) : Available :=
  AvailableFile (getFileIcon (meta_type file)) (meta_name file)
                (formatFileSize (meta_size file)) (meta_id file).

Definition appendAvailable (items : list Available) (a : App) : App :=
  set_dom (set_availableFiles (availableFiles (dom a) ++ items) (dom a)) a.

(** [loadAvailableFiles()] *)
Definition loadAvailableFiles : M unit :=
  try_catch
    (url <- gets (fun a => filesUrl (currentHostUrl a)) ;;
     console ("Fetching files from: " ++ url) ;;
     response <- fetch (mkRequest GET url None None) ;;
     data <- json response ;;
     console "Files received:" ;;
     modify (fun a => set_dom (set_availableFiles [AvailableHeading] (dom a)) a) ;;
     match json_files data with
     | Some (file :: more) =>
         modify (appendAvailable (List.map availableFile (file :: more))) ;;
         modify (showToast
                   ("Found " ++ N_toString (N.of_nat (List.length (file :: more)))
                    ++ " file(s) to download") "success")
     | _ => modify (appendAvailable [NoFilesNote])
     end)
    (fun error =>
       console "Error loading files:" ;;
       modify (appendAvailable [LoadErrorNote])).

(** [connectToHost()] *)
Definition connectToHost : M unit :=
  hostUrl <- gets (fun a => trim (hostUrlInput (dom a))) ;;
  match hostUrl with
  | EmptyString => modify (showConnectionStatus "Please enter a host URL" "error")
  | _ =>
      modify (showConnectionStatus "Connecting..." "info") ;;
      try_catch
        (response <- fetch (mkRequest GET (testUrl hostUrl) None None) ;;
         if ok response then
           modify (showConnectionStatus "Connected successfully!" "success") ;;
           modify (set_currentHostUrl (Some hostUrl)) ;;
           loadAvailableFiles
         else throw ("Server responded with " ++ N_toString (status response)))
        (fun error =>
           modify (showConnectionStatus ("Connection failed: " ++ error) "error"))
  end.

(** [downloadFile(fileId, fileName)] *)
Definition downloadFile (fileId fileName : string) : M unit :=
  try_catch
    (url <- gets (fun a => downloadUrl (currentHostUrl a) fileId) ;;
     console ("Downloading from: " ++ url) ;;
     ua <- gets userAgent ;;
     if isMobile ua then
       modify (showToast ("Starting download: " ++ fileName) "info") ;;
       modify (emit (Navigate url)) ;;
       modify (add_timer
                 (ToastLater (fileName ++ " download started! Check your downloads.")
                             "success"))
     else
       modify (appendProgressItem (mkProgress fileName fileId "0%" "0%")) ;;
       response <- fetch (mkRequest GET url None None) ;;
       if negb (ok response) then throw "Download failed"
       else
         let total := parseInt (content_length response) in
         modify (pump fileId total 0 (chunks response)) ;;
         if complete response then
           modify (emit (Save fileName (List.concat (chunks response)))) ;;
           modify (showToast (fileName ++ " downloaded successfully!") "success")
         else throw "network error")
    (fun error =>
       console "Download error:" ;;
       modify (showToast ("Failed to download " ++ fileName) "error")).

(** [handleDataChannelMessage(data)] on what [JSON.parse(data)] gives.
    The three handlers the [switch] names are not defined in the class,
    so calling one throws a TypeError inside the [try]; so does reading
    [type] off [null]. *)
Definition handleDataChannelMessage (message : Parsed) : M unit :=
  try_catch
    (match message with
     | ParseError => throw "Unexpected token in JSON"
     | ParsedNull =>
         console "Received message:" ;;
         throw "Cannot read properties of null"
     | ParsedObject type =>
         console "Received message:" ;;
         match type with
         | Some t =>
             if String.eqb t "fileList"
             then throw "this.displayAvailableFiles is not a function"
             else if String.eqb t "fileChunk"
             then throw "this.handleFileChunk is not a function"
             else if String.eqb t "fileComplete"
             then throw "this.handleFileComplete is not a function"
             else ret tt
         | None => ret tt
         end
     end)
    (fun error => console "Error handling data channel message:").

(** The listener run for an event. *)
Definition handle (e : Event) : M unit :=
  match e with
  | FilesChosen fs => handleFiles fs
  | RemoveClicked fileId => removeFile fileId
  | ModeClicked host => switchMode host
  | HostUrlTyped text =>
      modify (fun a => set_dom (set_hostUrlInput text (dom a)) a)
  | ConnectClicked => connectToHost
  | DownloadClicked fileId fileName => downloadFile fileId fileName
  | ChannelOpened => console "Data channel opened"
  | ChannelMessage message => handleDataChannelMessage message
  | TimerFired =>
      modify (fun a =>
        match timers a with
        | [] => a
        | t :: rest => run_timer t (set_timers rest a)
        end)
  end.

(** The page goes on from the state a listener leaves behind, however
    the listener ended. *)
Fixpoint run (events : list Event) (s : App * W) : App * W :=
  match events with
  | [] => s
  | e :: rest => run rest (state_of (handle e s))
  end.

(** An execution: the page is loaded, [init] runs, events follow. *)
Definition execution (ua : string) (w : W) (events : list Event) : App * W :=
  run events (state_of (init (new_app ua, w))).

End Methods.

Arguments ret {W A} x _.
Arguments bind {W A B} m f _.
Arguments throw {W A} e _.
Arguments try_catch {W A} m handler _.
Arguments modify {W} f _.
Arguments gets {W A} f _.
Arguments console {W} message _.
Arguments json {W} r _.
Arguments nextId {W} random _.
Arguments startClientMode {W} _.
Arguments switchMode {W} host _.
Arguments fetch {W} net q _.
Arguments detectNetworkInfo {W} net rtc _.
Arguments askServer {W} net _.
Arguments askWebRTC {W} rtc _.
Arguments setupPeerConnection {W} rtc _.
Arguments startHostMode {W} _.
Arguments init {W} net rtc _.
Arguments uploadFileToServer {W} net fileId file _.
Arguments handleFiles_loop {W} net random fs _.
Arguments handleFiles {W} net random fs _.
Arguments removeFile {W} net fileId _.
Arguments loadAvailableFiles {W} net _.
Arguments connectToHost {W} net _.
Arguments downloadFile {W} net fileId fileName _.
Arguments handleDataChannelMessage {W} message _.
Arguments handle {W} net random e _.
Arguments run {W} net random events s.
Arguments execution {W} net random rtc ua w events.

(* --------------------------------------------------------------------- *)
(** ** Networks and sample data used in the examples *)
(* --------------------------------------------------------------------- *)

(** A host that cannot be reached: every [fetch] is rejected. *)
Definition unreachable (q : Request) (w : unit) : unit * FetchOutcome :=
  (w, Rejected "Failed to fetch").

(** A host that accepts the connection and never answers. *)
Definition silent (q : Request) (w : unit) : unit * FetchOutcome :=
  (w, Pending).

(** A host whose download stream breaks after the first bytes. *)
Definition breaking (q : Request) (w : unit) : unit * FetchOutcome :=
  (w, Resolved (mkResponse 200 (Some "2048") None None [[Byte.x00; Byte.x01]] false None)).

(** A host that answers every request with 500. *)
Definition failing (q : Request) (w : unit) : unit * FetchOutcome :=
  (w, Resolved (mkResponse 500 None None None [] true None)).

(** The body delivered in one chunk (none when it is empty). *)
Definition one_chunk (b : bytes) : list bytes :=
  match b with
  | [] => []
  | _ => [b]
  end.

(** The body delivered two bytes at a time. *)
Fixpoint pairs_of (b : bytes) : list bytes :=
  match b with
  | x :: y :: rest => [x; y] :: pairs_of rest
  | [] => []
  | [x] => [[x]]
  end.

Definition photo : File := mkFile "photo.jpg" "image/jpeg" [Byte.xff; Byte.xd8; Byte.xff; Byte.xe0; Byte.x00].
Definition notes : File := mkFile "notes.txt" "text/plain" [Byte.x68; Byte.x69; Byte.x0a].
Definition empty_file : File := mkFile "empty.bin" "application/octet-stream" [].

Definition desktop : string := "Mozilla/5.0 (X11; Linux x86_64)".
Definition phone : string := "Mozilla/5.0 (iPhone; CPU iPhone OS 17_0 like Mac OS X)".

(** Two draws of [Math.random().toString(36)] that agree on the nine
    characters [generateId] keeps. *)
Definition twin_draws (n : nat) : string :=
  match n with
  | O => "0.4fzyo82mvyr"
  | _ => "0.4fzyo82mvq7"
  end.

Definition counting_draws (n : nat) : string :=
  "0." ++ N_toString (N.of_nat n) ++ "zyo82mvyr".

(** The page of a client that typed a host address. *)
Definition client_of (ua url : string) : App :=
  set_dom (set_hostUrlInput url empty_dom) (set_isHost false (new_app ua)).

(** A registry that already holds one file, for the download examples. *)
Definition shelf : Registry.State :=
  Registry.mkState
    [Registry.mkShared "0" "photo.jpg" "image/jpeg" 5 [Byte.xff; Byte.xd8; Byte.xff; Byte.xe0; Byte.x00];
     Registry.mkShared "1" "empty.bin" "application/octet-stream" 0 []]
    2 1000000 "http://192.168.1.5:8080".

(* --------------------------------------------------------------------- *)
(** ** Vocabulary of the properties *)
(* --------------------------------------------------------------------- *)

(** The request of the first step of [detectNetworkInfo]. *)
Definition networkInfoRequest : Request := mkRequest GET "/api/network-info" None None.

(** The server gave no address: the request was rejected, or answered
    with an error status or with a body that cannot be read as JSON. *)
Definition no_server_address (answer : FetchOutcome) : Prop :=
  match answer with
  | Resolved r => ok r = false \/ complete r = false \/ parsed r = None
  | Rejected _ => True
  | Pending => False
  end.

(** WebRTC gave no address: it is missing or fails, or no candidate
    seen before the timer shows one. *)
Definition no_local_address (rtc : Rtc) : Prop :=
  match rtc with
  | RtcCandidates candidates => first_ip candidates = None
  | _ => True
  end.

(** The two fallback messages of [detectNetworkInfo]. *)
Definition localhost_warning (status : string * string) : Prop :=
  status = ("Using localhost - network detection failed", "warning") \/
  status = ("Network detection failed - using localhost", "error").

(** A request without an abort signal: nothing bounds its duration. *)
Definition no_timeout (e : Effect) : Prop :=
  match e with
  | Fetch q => req_signal q = None
  | _ => True
  end.

(** What the page may do to the outside: it never sends on the data
    channel, its requests carry no abort signal, and a request with a
    body (file content) is a POST to [/api/upload]. *)
Definition page_effect (e : Effect) : Prop :=
  match e with
  | ChanSend _ => False
  | Fetch q =>
      req_signal q = None /\
      (req_body q = None \/ (req_method q = POST /\ req_url q = "/api/upload"))
  | _ => True
  end.

(** A method keeps [P] when the trace it leaves satisfies [P] throughout
    if the trace it started from did. *)
Definition keeps {W A : Type} (P : Effect -> Prop) (m : M W A) : Prop :=
  forall s, Forall P (log (fst s)) -> Forall P (log (fst (state_of (m s)))).

(** The toast [kind] with text [message] is among those shown. *)
Definition toasted (message kind : string) (a : App) : Prop :=
  In (message, kind) (toasts (dom a)).

(** The page reports a failure: an error toast, a failed connection
    status, or the error note in the list of available files. *)
Definition failure_shown (a : App) : bool :=
  existsb (fun t => String.eqb (snd t) "error" || startsWith (fst t) "Failed"
                    || startsWith (fst t) "Error") (toasts (dom a))
  || String.eqb (snd (connectionStatus (dom a))) "error"
  || existsb (fun v => match v with LoadErrorNote => true | _ => false end)
             (availableFiles (dom a)).

Definition threw {S A : Type} (r : Res S A) : bool :=
  match r with Throw _ _ => true | _ => false end.

(** The state [downloadFile] leaves on a mobile browser. *)
Definition handed_to_browser (fileId fileName : string) (a : App) : App :=
  let url := downloadUrl (currentHostUrl a) fileId in
  add_timer (ToastLater (fileName ++ " download started! Check your downloads.")
                        "success")
    (emit (Navigate url)
       (showToast ("Starting download: " ++ fileName) "info"
          (emit (Console ("Downloading from: " ++ url)) a))).

(** The byte counts [loaded] goes through while [pump] runs. *)
Fixpoint running (loaded : N) (values : list bytes) : list N :=
  match values with
  | [] => []
  | value :: rest =>
      let loaded' := loaded + N.of_nat (List.length value) in
      loaded' :: running loaded' rest
  end.

(** A progress element for [fileId] is in the page. *)
Definition has_progress (fileId : string) (a : App) : Prop :=
  exists item, In item (progressList (dom a)) /\ progress_id item = fileId.

Module RegistrySpec.
Import Registry.



(** The registry after serving the requests one after the other. *)
Definition serve_all (chunking : bytes -> list bytes) (requests : list Request)
    (r : State) : State :=
  fold_left (fun r q => fst (serve chunking q r)) requests r.

(** The answers it gives on the way. *)
Fixpoint answers (chunking : bytes -> list bytes) (requests : list Request)
    (r : State) : list Response :=
  match requests with
  | [] => []
  | q :: rest =>
      snd (serve chunking q r) :: answers chunking rest (fst (serve chunking q r))
  end.



Definition upload_of (file : File) (fileId : option string) : Request :=
  mkRequest POST "/api/upload" (Some (mkForm (Some file) fileId)) None.
End RegistrySpec.


(* --------------------------------------------------------------------- *)
(** ** copyShareUrl *)
(* --------------------------------------------------------------------- *)

(** What [document.execCommand('copy')] does: it copies the selection
    and returns true, returns false without copying, or throws. *)
Inductive ExecCommand : Type := ExecCopies | ExecRefuses | ExecThrows.

(** [navigator.clipboard]: missing, or present with a [writeText] whose
    promise is fulfilled or rejected. *)
Inductive ClipboardAPI : Type := NoClipboard | WriteResolves | WriteRejects.

Definition copied_toast (a : App) : App :=
  showToast "URL copied to clipboard!" "success" a.

(** [copyShareUrl()], given the value of the [#shareUrl] input. The
    second component is the text put on the clipboard, if any. *)
Definition copyShareUrl (value : string) (clipboard : ClipboardAPI)
    (exec : ExecCommand) (a : App) : App * option string :=
  if match value with
     | EmptyString => true
     | _ => String.eqb (trim value) ""
     end
  then (showToast "No URL to copy - please wait for server to start" "error" a, None)
  else
    match clipboard with
    | WriteResolves => (copied_toast a, Some value)
    | WriteRejects =>
        match exec with
        | ExecCopies => (copied_toast a, Some value)
        | ExecRefuses => (copied_toast a, None)
        | ExecThrows => (showToast "Failed to copy URL" "error" a, None)
        end
    | NoClipboard =>
        match exec with
        | ExecCopies => (copied_toast a, Some value)
        | ExecRefuses => (copied_toast a, None)
        | ExecThrows =>
            (showToast "Failed to copy URL - please copy manually" "error"
               (emit (Console "Copy failed:") a), None)
        end
    end.

(* --------------------------------------------------------------------- *)
(** ** The service worker ([sw.js]) *)
(* --------------------------------------------------------------------- *)

Module ServiceWorker.

(** [const CACHE_NAME = 'local-file-share-v1'] *)
Definition CACHE_NAME : string := "local-file-share-v1".

(** [const urlsToCache = [...]] *)
Definition urlsToCache : list string :=
["/"; "/index.html"; "/style.css"; "/script.js"; "/manifest.json";
 "https://cdn.jsdelivr.net/npm/qrcode@1.5.3/build/qrcode.min.js";
 "https://cdn.jsdelivr.net/npm/jsqr@1.4.0/dist/jsQR.js"].

(** A [Cache] maps request URLs to responses; the [CacheStorage]
  ([caches]) maps cache names to caches, in the order they were
  created. *)
Definition Cache : Type := JSMap Response.
Definition CacheStorage : Type := JSMap Cache.

(** A URL given to [addAll], resolved against the origin the worker is
  served from; request URLs reach the worker in this absolute form. *)
Definition resolve (origin url : string) : string :=
if startsWith url "http://" || startsWith url "https://" then url
else origin ++ url.

(** [caches.open(name)]: the cache is created when it is not there. *)
Definition caches_open (name : string) (s : CacheStorage) : CacheStorage :=
if map_has name s then s else map_set name [] s.

(** [cache.match(request)]: only GET requests match, by URL. *)
Definition cache_match (q : Request) (c : Cache) : option Response :=
match req_method q with
| GET => map_get (req_url q) c
| _ => None
end.

(** [caches.match(request)]: the first cache, in creation order, that
  holds the request. *)
Fixpoint caches_match (q : Request) (s : CacheStorage) : option Response :=
match s with
| [] => None
| (_, c) :: rest =>
    match cache_match q c with
    | Some r => Some r
    | None => caches_match q rest
    end
end.

(** [cache.addAll] decides on all answers together: one rejected or
  non-ok answer rejects it, otherwise an answer still missing keeps it
  waiting, otherwise every response is stored. *)
Fixpoint all_ok (answers : list (string * FetchOutcome))
  : option (list (string * Response)) :=
match answers with
| [] => Some []
| (url, Resolved r) :: rest =>
    if ok r then option_map (cons (url, r)) (all_ok rest) else None
| _ :: _ => None
end.

Definition some_failed (answers : list (string * FetchOutcome)) : bool :=
existsb (fun '(_, out) =>
           match out with
           | Resolved r => negb (ok r)
           | Rejected _ => true
           | Pending => false
           end) answers.

(** [cache.put] of each pair, in order. *)
Definition put_all (entries : list (string * Response)) (c : Cache) : Cache :=
fold_left (fun c '(url, r) => map_set url r c) entries c.

(** The [activate] listener: every cache whose name is not
  [CACHE_NAME] is deleted. *)
Definition activate (s : CacheStorage) : CacheStorage :=
fold_left (fun s name => if String.eqb name CACHE_NAME then s
                         else map_delete name s)
          (map_keys s) s.

Section Worker.

Variable W : Type.
Variable net : Request -> W -> W * FetchOutcome.

(** The origin the worker is served from. *)
Variable origin : string.

(** The requests [addAll] makes, one per URL. *)
Fixpoint fetch_all (urls : list string) (w : W)
: W * list (string * FetchOutcome) :=
match urls with
| [] => (w, [])
| url :: rest =>
  let '(w1, out) := net (mkRequest GET (resolve origin url) None None) w in
  let '(w2, outs) := fetch_all rest w1 in
  (w2, (resolve origin url, out) :: outs)
end.

(** The [install] listener: [caches.open(CACHE_NAME)] and then
[cache.addAll(urlsToCache)]. *)
Definition install (s : CacheStorage * W) : Res (CacheStorage * W) unit :=
let opened := caches_open CACHE_NAME (fst s) in
let '(w', answers) := fetch_all urlsToCache (snd s) in
match all_ok answers with
| Some entries =>
  let cache := match map_get CACHE_NAME opened with
               | Some c => c
               | None => []
               end in
  Ok tt (map_set CACHE_NAME (put_all entries cache) opened, w')
| None =>
  if some_failed answers
  then Throw "Failed to execute 'addAll' on 'Cache': Request failed" (opened, w')
  else Hang (opened, w')
end.

(** The [fetch] listener: the cached response, or else the network. *)
Definition onFetch (q : Request) (s : CacheStorage * W)
: Res (CacheStorage * W) Response :=
match caches_match q (fst s) with
| Some response => Ok response s
| None =>
  let '(w', out) := net q (snd s) in
  match out with
  | Resolved r => Ok r (fst s, w')
  | Rejected e => Throw e (fst s, w')
  | Pending => Hang (fst s, w')
  end
end.

End Worker.

Arguments fetch_all {W} net origin urls w.
Arguments install {W} net origin s.
Arguments onFetch {W} net q s.

End ServiceWorker.

(* --------------------------------------------------------------------- *)
(** ** Vocabulary of the further properties *)
(* --------------------------------------------------------------------- *)

(** The requests made in a trace, in order. *)
Fixpoint requests_of (trace : list Effect) : list Request :=
  match trace with
  | [] => []
  | Fetch q :: rest => q :: requests_of rest
  | _ :: rest => requests_of rest
  end.

(** A network that answers or rejects every request in the end. *)
Definition settles {W : Type} (net : Request -> W -> W * FetchOutcome) : Prop :=
  forall q w, snd (net q w) <> Pending.

(** The request [uploadFileToServer] makes. *)
Definition uploadRequest (fileId : string) (file : File) : Request :=
  mkRequest POST "/api/upload" (Some (mkForm (Some file) (Some fileId))) None.

(** The ids [handleFiles] draws for [fs], starting at the [first]-th
    call of [Math.random], each beside its file. *)
Definition drawn (random : nat -> string) (first : nat) (fs : list File)
    : list (string * File) :=
  List.combine (List.map (fun n => generateId (random n))
                         (List.seq first (List.length fs))) fs.

(** The screen list shows the file map: same ids, in the same order. *)
Definition list_mirrors_map (a : App) : Prop :=
  List.map item_id (fileList (dom a)) = map_keys (files a).

Fixpoint all_digits (s : string) : bool :=
  match s with
  | EmptyString => true
  | String c s' => is_digit c && all_digits s'
  end.

Definition digit_group (s : string) : Prop := s <> "" /\ all_digits s = true.

(** Four groups of digits with points between them. *)
Definition dotted_quad (ip : string) : Prop :=
  exists a b c d,
    ip = a ++ "." ++ b ++ "." ++ c ++ "." ++ d /\
    digit_group a /\ digit_group b /\ digit_group c /\ digit_group d.


(** The words [isMobile] looks for. *)
Definition mobile_words : list string := ["mobile"; "android"; "iphone"; "ipad"].

(* --------------------------------------------------------------------- *)
(** ** Further sample data *)
(* --------------------------------------------------------------------- *)

(** A host that gives the same answer to every request. *)
Definition answering (r : Response) (q : Request) (w : unit) : unit * FetchOutcome :=
  (w, Resolved r).

Definition two_entries : list FileMeta :=
  [mkMeta "k3x" "photo.jpg" 5 "image/jpeg"; mkMeta "p9q" "notes.txt" 3 "text/plain"].

Definition catalog_answer : Response :=
  mkResponse 200 None (Some "application/json") None [] true
             (Some (mkJson (Some two_entries) None)).

Definition info_answer : Response :=
  mkResponse 200 None (Some "application/json") None [] true
             (Some (mkJson None (Some "http://192.168.1.5:8080"))).

(** A download answered without Content-Length, in two chunks. *)
Definition lengthless_answer : Response :=
  mkResponse 200 None None None [[Byte.x68; Byte.x69]; [Byte.x0a]] true None.

Definition shell_answer : Response :=
  mkResponse 200 None (Some "text/html") None [] true None.

Definition host_with_two_files : App :=
  updateFileList (set_serverUrl "http://192.168.1.5:8080"
                    (set_files [("k3x", photo); ("p9q", notes)] (new_app desktop))).

Definition old_storage : ServiceWorker.CacheStorage :=
  [("local-file-share-v0", [("http://192.168.1.5:8080/api/files", catalog_answer)]);
   ("local-file-share-v1", [("http://192.168.1.5:8080/", shell_answer)])].

(* ===================================================================== *)
(** * Part II.  Lemmas and theorems *)
(* ===================================================================== *)

(* --------------------------------------------------------------------- *)
(** ** Tactics for the methods *)
(* --------------------------------------------------------------------- *)

(** Unfold the monad down to matches on what the network answers. *)
Ltac open_monad :=
  unfold console, json;
  unfold bind, ret, gets, modify, try_catch, throw, fetch;
  cbn [fst snd state_of returned hangs].

(** Split on the answer to the first request still in the goal. *)
Ltac on_answer :=
  match goal with
  | |- context [?n ?q ?w] =>
      match type of (n q w) with
      | (_ * FetchOutcome)%type =>
          let w' := fresh "w" in
          let r := fresh "r" in
          let e := fresh "e" in
          let E := fresh "E" in
          destruct (n q w) as [w' [r|e|]] eqn:E
      end
  end;
  cbn [fst snd state_of returned hangs].

(** Split on the tests made on a response. *)
Ltac on_response :=
  repeat match goal with
  | |- context [ok ?r] => destruct (ok r) eqn:?
  | |- context [complete ?r] => destruct (complete r) eqn:?
  | |- context [parsed ?r] => destruct (parsed r) eqn:?
  | |- context [json_files ?j] => destruct (json_files j) as [[|? ?]|] eqn:?
  end;
  cbn [fst snd state_of returned hangs negb].

(* --------------------------------------------------------------------- *)
(** ** Strings *)
(* --------------------------------------------------------------------- *)

Lemma append_assoc (a b c : string) : (a ++ b) ++ c = a ++ (b ++ c).
Proof.
  induction a as [|ch a IH]; simpl.
  - reflexivity.
  - now rewrite IH.
Qed.


Lemma endsWith_refl (t : string) : endsWith t t = true.
Proof.
  destruct t; simpl; [reflexivity|].
  now rewrite Ascii.eqb_refl, String.eqb_refl.
Qed.

Lemma endsWith_append (s t : string) : endsWith (s ++ t) t = true.
Proof.
  induction s as [|c s IH]; simpl.
  - apply endsWith_refl.
  - rewrite IH. apply orb_true_r.
Qed.


(* --------------------------------------------------------------------- *)
(** ** Request URLs *)
(* --------------------------------------------------------------------- *)

Example testUrl_bare : testUrl "http://192.168.1.5:8080" = "http://192.168.1.5:8080/api/files".
Proof. reflexivity. Qed.

Example testUrl_slash : testUrl "http://192.168.1.5:8080/" = "http://192.168.1.5:8080/api/files".
Proof. reflexivity. Qed.

Example downloadUrl_relative : downloadUrl None "k3x" = "/api/download/k3x".
Proof. reflexivity. Qed.




(** The probe of [connectToHost] goes to [testUrl] of the trimmed entry. *)
Lemma connectToHost_probe {W : Type} (net : Request -> W -> W * FetchOutcome)
    (a : App) (w : W) :
  trim (hostUrlInput (dom a)) <> "" ->
  exists rest,
    log (fst (state_of (connectToHost net (a, w))))
    = (log a ++ Fetch (mkRequest GET (testUrl (trim (hostUrlInput (dom a)))) None None)
               :: rest)%list.
Proof.
  intros Hne. unfold connectToHost. open_monad.
  destruct (trim (hostUrlInput (dom a))) as [|c u] eqn:Eu; [congruence|].
  on_answer.
  - on_response.
    + unfold loadAvailableFiles. open_monad. on_answer.
      * on_response; cbn; eexists; rewrite <- ?app_assoc; simpl; reflexivity.
      * cbn. eexists. rewrite <- ?app_assoc. simpl. reflexivity.
      * cbn. eexists. rewrite <- ?app_assoc. simpl. reflexivity.
    + cbn. eexists. reflexivity.
  - cbn. eexists. reflexivity.
  - cbn. eexists. reflexivity.
Qed.

(* --------------------------------------------------------------------- *)
(** ** The file map of the host page *)
(* --------------------------------------------------------------------- *)

Section JSMapFacts.
Context {V : Type}.

Lemma map_get_delete (key : string) (m : JSMap V) :
  map_get key (map_delete key m) = None.
Proof.
  induction m as [|[k' v] m IH]; simpl.
  - reflexivity.
  - destruct (String.eqb k' key) eqn:E; simpl.
    + exact IH.
    + now rewrite E.
Qed.

Lemma map_has_delete (key : string) (m : JSMap V) :
  map_has key (map_delete key m) = false.
Proof.
  unfold map_has. now rewrite map_get_delete.
Qed.

Lemma map_delete_keys (key : string) (m : JSMap V) :
  Forall (fun k' => k' <> key) (map_keys (map_delete key m)).
Proof.
  induction m as [|[k' v] m IH]; simpl.
  - constructor.
  - destruct (String.eqb k' key) eqn:E; simpl.
    + exact IH.
    + constructor; [now apply String.eqb_neq | exact IH].
Qed.

Lemma map_delete_other (key other : string) (m : JSMap V) :
  other <> key -> map_get other (map_delete key m) = map_get other m.
Proof.
  intros Hne. induction m as [|[k' v] m IH]; simpl.
  - reflexivity.
  - destruct (String.eqb k' key) eqn:E; simpl.
    + apply String.eqb_eq in E. subst k'.
      destruct (String.eqb key other) eqn:E2.
      * apply String.eqb_eq in E2. congruence.
      * exact IH.
    + now rewrite IH.
Qed.
End JSMapFacts.

Lemma updateFileList_ids (a : App) :
  List.map item_id (fileList (dom (updateFileList a))) = map_keys (files a).
Proof.
  unfold updateFileList, map_keys. cbn.
  rewrite List.map_map. apply List.map_ext. now intros [fileId file].
Qed.

Example removeFile_unreachable :
  let a := set_files [("k3x", photo); ("p9q", notes)] (new_app desktop) in
  let r := removeFile unreachable "k3x" (a, tt) in
  returned r = true /\ files (fst (state_of r)) = [("p9q", notes)].
Proof. split; reflexivity. Qed.

(** C9. [removeFile(fileId)] takes the entry out of the host's file map
    first, whatever the server then does: in the state it reaches (also
    when the request is rejected, answered with an error status, or never
    answered) the map is the old one without [fileId]. It never throws; it
    returns unless the request never settles, and then the rendered file
    list has no item for [fileId]. *)
Theorem removeFile_deletes_locally_first {W : Type}
    (net : Request -> W -> W * FetchOutcome) (fileId : string) (a : App) (w : W) :
  let r := removeFile net fileId (a, w) in
  let request := mkRequest DELETE ("/api/remove-file/" ++ fileId) None None in
  files (fst (state_of r)) = map_delete fileId (files a) /\
  map_has fileId (files (fst (state_of r))) = false /\
  match r with
  | Ok _ s => Forall (fun item => item_id item <> fileId) (fileList (dom (fst s)))
  | Throw _ _ => False
  | Hang _ => snd (net request w) = Pending
  end.
Proof.
  unfold removeFile. open_monad. on_answer.
  - on_response; cbn [files set_files showToast updateFileList updateShareInfo
                      set_dom emit set_log fst snd];
      (split; [reflexivity | split; [apply map_has_delete|]]);
      apply Forall_map with (f := item_id) (P := fun i => i <> fileId);
      match goal with
      | |- Forall _ (List.map item_id (fileList (dom (updateShareInfo ?x)))) =>
          change (fileList (dom (updateShareInfo x))) with (fileList (dom x))
      end;
      rewrite updateFileList_ids; apply map_delete_keys.
  - cbn [files set_files showToast updateFileList updateShareInfo
                      set_dom emit set_log fst snd].
    split; [reflexivity | split; [apply map_has_delete|]].
    apply Forall_map with (f := item_id) (P := fun i => i <> fileId).
    match goal with
      | |- Forall _ (List.map item_id (fileList (dom (updateShareInfo ?x)))) =>
          change (fileList (dom (updateShareInfo x))) with (fileList (dom x))
      end.
    rewrite updateFileList_ids. apply map_delete_keys.
  - cbn [files set_files emit set_log fst snd].
    split; [reflexivity | split; [apply map_has_delete|]].
    reflexivity.
Qed.

(* --------------------------------------------------------------------- *)
(** ** formatFileSize *)
(* --------------------------------------------------------------------- *)

Example formatFileSize_0 : formatFileSize 0 = "0 Bytes".
Proof. reflexivity. Qed.
Example formatFileSize_1 : formatFileSize 1 = "1 Bytes".
Proof. reflexivity. Qed.
Example formatFileSize_1023 : formatFileSize 1023 = "1023 Bytes".
Proof. reflexivity. Qed.
Example formatFileSize_1536 : formatFileSize 1536 = "1.5 KB".
Proof. reflexivity. Qed.
Example formatFileSize_2048 : formatFileSize 2048 = "2 KB".
Proof. reflexivity. Qed.
Example formatFileSize_1234567 : formatFileSize 1234567 = "1.18 MB".
Proof. reflexivity. Qed.
Example formatFileSize_500MB : formatFileSize 524288000 = "500 MB".
Proof. reflexivity. Qed.
Example formatFileSize_3TB : formatFileSize (3 * 1024 ^ 4) = "3 TB".
Proof. reflexivity. Qed.

Lemma log_floor_small (bytes : N) :
  0 < bytes -> bytes < 1024 ^ 5 -> log_floor k bytes < 5.
Proof.
  intros Hpos Hlt. unfold log_floor, k.
  change (N.log2 1024) with 10.
  assert (Hl : N.log2 bytes < 50).
  { apply N.log2_lt_pow2; [assumption|]. exact Hlt. }
  apply N.Div0.div_lt_upper_bound. lia.
Qed.

(** Below 1024^5 the unit is one of the five, and the number before it
    is the text of a count of hundredths. *)
Lemma formatFileSize_in_range (bytes : N) :
  0 < bytes -> bytes < 1024 ^ 5 ->
  exists n unit,
    formatFileSize bytes = hundredths_toString n ++ " " ++ unit /\
    In unit sizes.
Proof.
  intros Hpos Hlt. unfold formatFileSize.
  destruct (N.eqb_spec bytes 0) as [->|_]; [lia|].
  pose proof (log_floor_small bytes Hpos Hlt) as Hi.
  exists (toFixed2 bytes (k ^ log_floor k bytes)), (sizes_at (log_floor k bytes)).
  split; [reflexivity|].
  assert (Hc : log_floor k bytes = 0 \/ log_floor k bytes = 1 \/
               log_floor k bytes = 2 \/ log_floor k bytes = 3 \/
               log_floor k bytes = 4) by lia.
  destruct Hc as [-> | [-> | [-> | [-> | ->]]]]; cbn; tauto.
Qed.

(** C10 at 2^55 bytes (32 PiB): the index into [sizes] is 5, past the
    last unit, and the text returned names no unit. *)
Theorem formatFileSize_past_TB :
  formatFileSize 36028797018963968 = "32 undefined".
Proof. vm_compute. reflexivity. Qed.

(* --------------------------------------------------------------------- *)
(** ** Network detection *)
(* --------------------------------------------------------------------- *)

Example detect_from_server :
  serverUrl (fst (state_of (detectNetworkInfo (Registry.net one_chunk) RtcUnavailable
                              (new_app desktop, shelf))))
  = "http://192.168.1.5:8080".
Proof. reflexivity. Qed.

Example detect_from_candidate :
  let s := state_of (detectNetworkInfo unreachable
             (RtcCandidates ["candidate:1 1 udp 2122260223 192.168.1.23 54321 typ host"])
             (new_app desktop, tt)) in
  serverUrl (fst s) = "http://192.168.1.23:8080" /\ timers (fst s) = [DetectTimeout].
Proof. split; reflexivity. Qed.

(** The timer of a detection that found an address is still to run, and
    when it does the address is replaced. *)
Example detect_timer_overwrites :
  let s := state_of (detectNetworkInfo unreachable
             (RtcCandidates ["candidate:1 1 udp 2122260223 192.168.1.23 54321 typ host"])
             (new_app desktop, tt)) in
  serverUrl (fst (state_of (handle unreachable counting_draws TimerFired s)))
  = "http://localhost:8080".
Proof. reflexivity. Qed.

Lemma networkStatus_updated (message kind : string) (a : App) :
  networkStatus (dom (updateNetworkStatus message kind a)) = (message, kind).
Proof.
  unfold updateNetworkStatus. destruct (serverUrl a); reflexivity.
Qed.

Lemma askServer_no_address {W : Type} (net : Request -> W -> W * FetchOutcome)
    (a : App) (w w' : W) (answer : FetchOutcome) :
  net networkInfoRequest w = (w', answer) ->
  no_server_address answer ->
  exists a',
    askServer net (a, w) = Ok false (a', w') /\
    serverUrl a' = serverUrl a /\ serverPort a' = serverPort a.
Proof.
  intros Hnet Hno. unfold askServer. open_monad.
  fold networkInfoRequest. rewrite Hnet.
  destruct answer as [r | e |]; cbn in Hno; [| | contradiction].
  - destruct (ok r) eqn:Eok.
    + destruct Hno as [Hno | [Hno | Hno]]; [discriminate | |].
      * rewrite Hno. cbn. eexists. repeat split.
      * rewrite Hno. destruct (complete r); cbn; eexists; repeat split.
    + cbn. eexists. repeat split.
  - cbn. eexists. repeat split.
Qed.

Lemma askWebRTC_no_address {W : Type} (rtc : Rtc) (a : App) (w : W) :
  no_local_address rtc ->
  exists a',
    askWebRTC rtc (a, w) = Ok tt (a', w) /\
    serverUrl a' = localhostUrl a /\
    localhost_warning (networkStatus (dom a')).
Proof.
  intros Hno. unfold askWebRTC, localhost_warning. open_monad.
  destruct rtc as [| | candidates]; cbn [no_local_address] in Hno;
    cbn [fst snd].
  - eexists. split; [reflexivity|]. split; [reflexivity|]. right.
    cbn [dom set_serverUrl]. apply networkStatus_updated.
  - eexists. split; [reflexivity|]. split; [reflexivity|]. right.
    cbn [dom set_serverUrl]. apply networkStatus_updated.
  - rewrite Hno. cbn [fst snd run_timer]. eexists.
    split; [reflexivity|]. split; [reflexivity|].
    left. apply networkStatus_updated.
Qed.

(** C6, as the claim has it, fails: the request for the server's
    address has no timeout, so a server that never answers leaves
    [detectNetworkInfo] (and [init] with it) parked at its [fetch];
    [serverUrl] stays empty and no warning is shown. *)
Lemma detection_stalls_on_silent_server :
  let r := detectNetworkInfo silent (RtcCandidates []) (new_app desktop, tt) in
  hangs r = true /\
  serverUrl (fst (state_of r)) = "" /\
  networkStatus (dom (fst (state_of r))) = ("", "") /\
  hangs (init silent (RtcCandidates []) (new_app desktop, tt)) = true.
Proof. repeat split; reflexivity. Qed.

(** C6, amended. Once the request for the server's address has settled
    without giving one (rejected, error status, unreadable body), and
    WebRTC yields none either (it is missing, fails, or shows no address
    before its five-second timer), [detectNetworkInfo] returns normally
    with [serverUrl] set to the localhost URL of the port and one of its two
    fallback messages in the status line; and [init] run on a browser that
    has WebRTC returns too. *)
Theorem detection_fails_soft {W : Type} (net : Request -> W -> W * FetchOutcome)
    (rtc : Rtc) (a : App) (w w' : W) (answer : FetchOutcome) :
  net networkInfoRequest w = (w', answer) ->
  no_server_address answer ->
  no_local_address rtc ->
  (exists a',
     detectNetworkInfo net rtc (a, w) = Ok tt (a', w') /\
     serverUrl a' = "http://localhost:" ++ N_toString (serverPort a) /\
     localhost_warning (networkStatus (dom a'))) /\
  (rtc <> RtcUnavailable -> returned (init net rtc (a, w)) = true).
Proof.
  intros Hnet Hsrv Hrtc.
  destruct (askServer_no_address net a w w' answer Hnet Hsrv) as (a1 & E1 & Hu & Hp).
  destruct (askWebRTC_no_address rtc a1 w' Hrtc) as (a2 & E2 & Hu2 & Hs2).
  assert (Hd : detectNetworkInfo net rtc (a, w) = Ok tt (a2, w')).
  { unfold detectNetworkInfo, bind. rewrite E1. exact E2. }
  split.
  - exists a2. split; [exact Hd|]. split; [|exact Hs2].
    rewrite Hu2. unfold localhostUrl. now rewrite Hp.
  - intros Hav. unfold init, bind. rewrite Hd.
    unfold setupPeerConnection. destruct rtc; [congruence | reflexivity | reflexivity].
Qed.

Lemma detection_fails_soft_witness :
  (exists a',
     detectNetworkInfo unreachable
       (RtcCandidates ["candidate:1 1 udp 2113937151 6c1f0f2e.local 54321 typ host"])
       (new_app desktop, tt) = Ok tt (a', tt) /\
     serverUrl a' = "http://localhost:8080" /\
     localhost_warning (networkStatus (dom a'))).
Proof.
  refine (proj1 (detection_fails_soft unreachable
            (RtcCandidates ["candidate:1 1 udp 2113937151 6c1f0f2e.local 54321 typ host"])
            (new_app desktop) tt tt (Rejected "Failed to fetch") _ _ _)).
  - reflexivity.
  - exact I.
  - reflexivity.
Defined.

(* --------------------------------------------------------------------- *)
(** ** Traces of effects *)
(* --------------------------------------------------------------------- *)

Section Keeps.
Context {W : Type}.
Variable P : Effect -> Prop.
Hypothesis page_effects_in_P : forall e, page_effect e -> P e.

Lemma keeps_ret {A : Type} (x : A) : keeps P (ret (W := W) x).
Proof. intros s H. exact H. Qed.

Lemma keeps_throw {A : Type} (e : string) : keeps P (throw (W := W) (A := A) e).
Proof. intros s H. exact H. Qed.

Lemma keeps_gets {A : Type} (f : App -> A) : keeps P (gets (W := W) f).
Proof. intros s H. exact H. Qed.

Lemma keeps_bind {A B : Type} (m : M W A) (f : A -> M W B) :
  keeps P m -> (forall x, keeps P (f x)) -> keeps P (bind m f).
Proof.
  intros Hm Hf s H. unfold bind. specialize (Hm s H).
  destruct (m s) as [x s' | e s' | s']; cbn in Hm |- *.
  - apply Hf. exact Hm.
  - exact Hm.
  - exact Hm.
Qed.

Lemma keeps_try_catch {A : Type} (m : M W A) (handler : string -> M W A) :
  keeps P m -> (forall e, keeps P (handler e)) -> keeps P (try_catch m handler).
Proof.
  intros Hm Hh s H. unfold try_catch. specialize (Hm s H).
  destruct (m s) as [x s' | e s' | s']; cbn in Hm |- *.
  - exact Hm.
  - apply Hh. exact Hm.
  - exact Hm.
Qed.

Lemma keeps_same (f : App -> App) :
  (forall a, log (f a) = log a) -> keeps P (modify (W := W) f).
Proof.
  intros Hf s H. unfold modify. cbn. now rewrite Hf.
Qed.

Lemma keeps_emit (e : Effect) : page_effect e -> keeps P (modify (W := W) (emit e)).
Proof.
  intros He s H. unfold modify, emit. cbn.
  apply Forall_app. split; [exact H|]. constructor; [|constructor].
  now apply page_effects_in_P.
Qed.

Lemma keeps_console (message : string) : keeps P (console (W := W) message).
Proof. apply keeps_emit. exact I. Qed.

Lemma keeps_fetch (net : Request -> W -> W * FetchOutcome) (q : Request) :
  page_effect (Fetch q) -> keeps P (fetch net q).
Proof.
  intros Hq s H. unfold fetch.
  destruct (net q (snd s)) as [w' [r | e |]]; cbn;
    (apply Forall_app; split; [exact H|]; constructor; [|constructor];
     now apply page_effects_in_P).
Qed.

Lemma log_write_progress (fileId : string) (p : Rounded) (a : App) :
  log (write_progress fileId p a) = log a \/
  log (write_progress fileId p a) = (log a ++ [Progress fileId p])%list.
Proof.
  unfold write_progress.
  destruct (set_progress fileId _ (progressList (dom a))); [right | left]; reflexivity.
Qed.

Lemma pump_keeps (fileId : string) (total : Number) (values : list bytes) :
  forall loaded a,
    Forall P (log a) -> Forall P (log (pump fileId total loaded values a)).
Proof.
  induction values as [|value rest IH]; intros loaded a H; cbn [pump].
  - exact H.
  - apply IH.
    destruct (log_write_progress fileId
                (percent (loaded + N.of_nat (List.length value)) total) a) as [E | E];
      rewrite E; [exact H|].
    apply Forall_app. split; [exact H|]. constructor; [|constructor].
    apply page_effects_in_P. exact I.
Qed.

Lemma keeps_pump (fileId : string) (total : Number) (loaded : N) (values : list bytes) :
  keeps P (modify (W := W) (pump fileId total loaded values)).
Proof.
  intros s H. unfold modify. cbn. now apply pump_keeps.
Qed.

(** One step through a method body. *)
Ltac keeps_step :=
  match goal with
  | |- keeps _ (bind _ _) => apply keeps_bind; [|intros ?]
  | |- keeps _ (try_catch _ _) => apply keeps_try_catch; [|intros ?]
  | |- keeps _ (ret _) => apply keeps_ret
  | |- keeps _ (throw _) => apply keeps_throw
  | |- keeps _ (gets _) => apply keeps_gets
  | |- keeps _ (json _) => unfold json
  | |- keeps _ (console _) => apply keeps_console
  | |- keeps _ (fetch _ _) =>
      apply keeps_fetch; cbn;
      (split; [reflexivity | first [left; reflexivity | right; split; reflexivity]])
  | |- keeps _ (modify (pump _ _ _ _)) => apply keeps_pump
  | |- keeps _ (modify (emit _)) => apply keeps_emit; exact I
  | |- keeps _ (modify _) => apply keeps_same; intros ?; reflexivity
  | |- keeps _ (if ?b then _ else _) => destruct b
  | |- keeps _ (match ?x with _ => _ end) => destruct x
  end.

Ltac keeps_all := repeat keeps_step.

Variable net : Request -> W -> W * FetchOutcome.
Variable random : nat -> string.
Variable rtc : Rtc.

Lemma keeps_detectNetworkInfo : keeps P (detectNetworkInfo net rtc).
Proof. unfold detectNetworkInfo, askServer, askWebRTC. keeps_all. Qed.

Lemma keeps_setupPeerConnection : keeps P (setupPeerConnection (W := W) rtc).
Proof. unfold setupPeerConnection. keeps_all. Qed.

Lemma keeps_startHostMode : keeps P (startHostMode (W := W)).
Proof. unfold startHostMode. keeps_all. Qed.

Lemma keeps_init : keeps P (init net rtc).
Proof.
  unfold init.
  apply keeps_bind; [apply keeps_detectNetworkInfo | intros _].
  apply keeps_bind; [apply keeps_setupPeerConnection | intros _].
  apply keeps_startHostMode.
Qed.

Lemma keeps_switchMode (host : bool) : keeps P (switchMode (W := W) host).
Proof.
  unfold switchMode.
  apply keeps_bind; [keeps_all | intros _].
  destruct host; [apply keeps_startHostMode | unfold startClientMode; keeps_all].
Qed.

Lemma keeps_uploadFileToServer (fileId : string) (file : File) :
  keeps P (uploadFileToServer net fileId file).
Proof. unfold uploadFileToServer. keeps_all. Qed.

Lemma keeps_nextId : keeps P (nextId (W := W) random).
Proof. intros s H. exact H. Qed.

Lemma keeps_handleFiles_loop (fs : list File) : keeps P (handleFiles_loop net random fs).
Proof.
  induction fs as [|file rest IH]; cbn [handleFiles_loop].
  - apply keeps_ret.
  - apply keeps_bind; [apply keeps_nextId | intros fileId].
    apply keeps_bind; [keeps_all | intros _].
    apply keeps_bind; [apply keeps_uploadFileToServer | intros _].
    apply keeps_bind; [keeps_all | intros _].
    exact IH.
Qed.

Lemma keeps_handleFiles (fs : list File) : keeps P (handleFiles net random fs).
Proof.
  unfold handleFiles.
  apply keeps_bind; [apply keeps_handleFiles_loop | intros _]. keeps_all.
Qed.

Lemma keeps_removeFile (fileId : string) : keeps P (removeFile net fileId).
Proof. unfold removeFile. keeps_all. Qed.

Lemma keeps_loadAvailableFiles : keeps P (loadAvailableFiles net).
Proof. unfold loadAvailableFiles. keeps_all. Qed.

Lemma keeps_connectToHost : keeps P (connectToHost net).
Proof.
  unfold connectToHost.
  apply keeps_bind; [keeps_all | intros hostUrl].
  destruct hostUrl; [keeps_all|].
  apply keeps_bind; [keeps_all | intros _].
  apply keeps_try_catch; [|intros e; keeps_all].
  apply keeps_bind; [keeps_all | intros response].
  destruct (ok response); [|keeps_all].
  apply keeps_bind; [keeps_all | intros _].
  apply keeps_bind; [keeps_all | intros _].
  apply keeps_loadAvailableFiles.
Qed.

Lemma keeps_downloadFile (fileId fileName : string) :
  keeps P (downloadFile net fileId fileName).
Proof. unfold downloadFile. keeps_all. Qed.

Lemma keeps_handleDataChannelMessage (message : Parsed) :
  keeps P (handleDataChannelMessage (W := W) message).
Proof. unfold handleDataChannelMessage. keeps_all. Qed.

Lemma keeps_handle (e : Event) : keeps P (handle net random e).
Proof.
  destruct e; cbn [handle].
  - apply keeps_handleFiles.
  - apply keeps_removeFile.
  - apply keeps_switchMode.
  - keeps_all.
  - apply keeps_connectToHost.
  - apply keeps_downloadFile.
  - apply keeps_console.
  - apply keeps_handleDataChannelMessage.
  - apply keeps_same. intros a.
    destruct (timers a) as [|[|message kind] rest]; reflexivity.
Qed.

Lemma run_keeps (events : list Event) :
  forall s, Forall P (log (fst s)) -> Forall P (log (fst (run net random events s))).
Proof.
  induction events as [|e rest IH]; intros s H; cbn [run].
  - exact H.
  - apply IH. now apply keeps_handle.
Qed.

Lemma execution_keeps (ua : string) (w : W) (events : list Event) :
  Forall P (log (fst (execution net random rtc ua w events))).
Proof.
  unfold execution. apply run_keeps.
  apply (keeps_init (new_app ua, w)). constructor.
Qed.

End Keeps.

(* --------------------------------------------------------------------- *)
(** ** What [pump] changes *)
(* --------------------------------------------------------------------- *)

Lemma app_eta (a : App) :
  a = set_log (log a) (set_dom (set_progressList (progressList (dom a)) (dom a)) a).
Proof. destruct a as [? ? ? ? ? ? ? ? d ? ?]. destruct d. reflexivity. Qed.

(** [pump] writes progress elements and trace, nothing else. *)
Lemma pump_frame (fileId : string) (total : Number) (values : list bytes) :
  forall loaded a,
  exists items extra,
    pump fileId total loaded values a
    = set_log (log a ++ extra) (set_dom (set_progressList items (dom a)) a).
Proof.
  induction values as [|value rest IH]; intros loaded a; cbn [pump].
  - exists (progressList (dom a)), []. rewrite app_nil_r. apply app_eta.
  - destruct (IH (loaded + N.of_nat (List.length value))
                (write_progress fileId
                   (percent (loaded + N.of_nat (List.length value)) total) a))
      as (items & extra & E).
    rewrite E. unfold write_progress.
    destruct (set_progress fileId _ (progressList (dom a))) as [items0|].
    + exists items, (Progress fileId
                       (percent (loaded + N.of_nat (List.length value)) total) :: extra).
      destruct a as [? ? ? ? ? ? ? ? d ? ?]. destruct d. cbn.
      rewrite <- app_assoc. reflexivity.
    + exists items, extra. reflexivity.
Qed.

Lemma pump_toasts fileId total loaded values a :
  toasts (dom (pump fileId total loaded values a)) = toasts (dom a).
Proof.
  destruct (pump_frame fileId total values loaded a) as (items & extra & E).
  now rewrite E.
Qed.

Lemma pump_files fileId total loaded values a :
  files (pump fileId total loaded values a) = files a.
Proof.
  destruct (pump_frame fileId total values loaded a) as (items & extra & E).
  now rewrite E.
Qed.

Lemma pump_currentHostUrl fileId total loaded values a :
  currentHostUrl (pump fileId total loaded values a) = currentHostUrl a.
Proof.
  destruct (pump_frame fileId total values loaded a) as (items & extra & E).
  now rewrite E.
Qed.

Lemma set_progress_some (fileId text : string) (items : list ProgressItem) :
  (exists item, In item items /\ progress_id item = fileId) ->
  exists items',
    set_progress fileId text items = Some items' /\
    exists item, In item items' /\ progress_id item = fileId.
Proof.
  induction items as [|it rest IH]; intros (item & Hin & Hid).
  - contradiction.
  - cbn [set_progress]. destruct (String.eqb (progress_id it) fileId) eqn:E.
    + eexists. split; [reflexivity|].
      eexists. split; [left; reflexivity | reflexivity].
    + destruct Hin as [-> | Hin].
      * apply String.eqb_neq in E. contradiction.
      * destruct IH as (items' & E' & item' & Hin' & Hid'); [now exists item|].
        rewrite E'. eexists. split; [reflexivity|].
        exists item'. split; [right; exact Hin' | exact Hid'].
Qed.

(** With a progress element in the page, [pump] reports after each
    chunk the percentage of the bytes read so far. *)
Lemma pump_log (fileId : string) (total : Number) (values : list bytes) :
  forall loaded a,
    has_progress fileId a ->
    log (pump fileId total loaded values a)
    = (log a ++ List.map (fun n => Progress fileId (percent n total))
                         (running loaded values))%list.
Proof.
  induction values as [|value rest IH]; intros loaded a Hhas; cbn [pump running].
  - cbn. now rewrite app_nil_r.
  - destruct Hhas as (item & Hin & Hid).
    destruct (set_progress_some fileId
                (Rounded_toString (percent (loaded + N.of_nat (List.length value)) total)
                 ++ "%") (progressList (dom a))) as (items' & E & Hhas');
      [now exists item|].
    rewrite IH.
    + unfold write_progress. rewrite E. cbn. rewrite <- app_assoc. reflexivity.
    + unfold write_progress, has_progress. rewrite E. cbn. exact Hhas'.
Qed.

Lemma pump_log_in fileId total loaded values a e :
  In e (log (pump fileId total loaded values a)) ->
  In e (log a) \/ exists p, e = Progress fileId p.
Proof.
  revert loaded a. induction values as [|value rest IH]; intros loaded a Hin;
    cbn [pump] in Hin.
  - now left.
  - apply IH in Hin. destruct Hin as [Hin | Hin]; [|now right].
    destruct (log_write_progress fileId
                (percent (loaded + N.of_nat (List.length value)) total) a) as [E | E];
      rewrite E in Hin; [now left|].
    apply in_app_or in Hin. destruct Hin as [Hin | [<- | []]]; [now left|].
    right. eexists. reflexivity.
Qed.

(* --------------------------------------------------------------------- *)
(** ** Requests that fail, and requests that are never answered *)
(* --------------------------------------------------------------------- *)

Section Failures.
Context {W : Type}.
Variable net : Request -> W -> W * FetchOutcome.

Lemma connectToHost_rejected (a : App) (w w' : W) (e : string) :
  trim (hostUrlInput (dom a)) <> "" ->
  net (mkRequest GET (testUrl (trim (hostUrlInput (dom a)))) None None) w
  = (w', Rejected e) ->
  let r := connectToHost net (a, w) in
  returned r = true /\
  connectionStatus (dom (fst (state_of r))) = ("Connection failed: " ++ e, "error").
Proof.
  intros Hne Hnet. unfold connectToHost. open_monad.
  destruct (trim (hostUrlInput (dom a))) as [|c u]; [congruence|].
  cbn [fst snd]. rewrite Hnet. cbn. split; reflexivity.
Qed.

Lemma connectToHost_pending (a : App) (w w' : W) :
  trim (hostUrlInput (dom a)) <> "" ->
  net (mkRequest GET (testUrl (trim (hostUrlInput (dom a)))) None None) w
  = (w', Pending) ->
  let r := connectToHost net (a, w) in
  hangs r = true /\
  connectionStatus (dom (fst (state_of r))) = ("Connecting...", "info").
Proof.
  intros Hne Hnet. unfold connectToHost. open_monad.
  destruct (trim (hostUrlInput (dom a))) as [|c u]; [congruence|].
  cbn [fst snd]. rewrite Hnet. cbn. split; reflexivity.
Qed.

Lemma loadAvailableFiles_rejected (a : App) (w w' : W) (e : string) :
  net (mkRequest GET (filesUrl (currentHostUrl a)) None None) w = (w', Rejected e) ->
  let r := loadAvailableFiles net (a, w) in
  returned r = true /\
  availableFiles (dom (fst (state_of r)))
  = (availableFiles (dom a) ++ [LoadErrorNote])%list.
Proof.
  intros Hnet. unfold loadAvailableFiles. open_monad. cbn [currentHostUrl emit set_log].
  rewrite Hnet. cbn. split; reflexivity.
Qed.

Lemma loadAvailableFiles_unreadable (a : App) (w w' : W) (r0 : Response) :
  net (mkRequest GET (filesUrl (currentHostUrl a)) None None) w = (w', Resolved r0) ->
  complete r0 = false \/ parsed r0 = None ->
  let r := loadAvailableFiles net (a, w) in
  returned r = true /\
  availableFiles (dom (fst (state_of r)))
  = (availableFiles (dom a) ++ [LoadErrorNote])%list.
Proof.
  intros Hnet Hbad. unfold loadAvailableFiles. open_monad.
  cbn [currentHostUrl emit set_log].
  rewrite Hnet. cbn [fst snd].
  destruct (complete r0); [destruct Hbad as [Hbad | Hbad]; [discriminate|];
                           rewrite Hbad|];
    cbn; split; reflexivity.
Qed.

Lemma loadAvailableFiles_pending (a : App) (w w' : W) :
  net (mkRequest GET (filesUrl (currentHostUrl a)) None None) w = (w', Pending) ->
  let r := loadAvailableFiles net (a, w) in
  hangs r = true /\
  availableFiles (dom (fst (state_of r))) = availableFiles (dom a).
Proof.
  intros Hnet. unfold loadAvailableFiles. open_monad. cbn [currentHostUrl emit set_log].
  rewrite Hnet. cbn. split; reflexivity.
Qed.

Lemma loadAvailableFiles_frame (a : App) (w : W) :
  let r := loadAvailableFiles net (a, w) in
  threw r = false /\
  files (fst (state_of r)) = files a /\
  currentHostUrl (fst (state_of r)) = currentHostUrl a.
Proof.
  unfold loadAvailableFiles. open_monad. cbn [currentHostUrl emit set_log].
  on_answer; [on_response|..]; cbn; repeat split; reflexivity.
Qed.

Lemma uploadFileToServer_rejected (fileId : string) (file : File)
    (a : App) (w w' : W) (e : string) :
  net (mkRequest POST "/api/upload" (Some (mkForm (Some file) (Some fileId))) None) w
  = (w', Rejected e) ->
  let r := uploadFileToServer net fileId file (a, w) in
  returned r = true /\
  toasts (dom (fst (state_of r)))
  = (toasts (dom a) ++ [(("Error uploading " ++ file_name file)%string, "success")])%list.
Proof.
  intros Hnet. unfold uploadFileToServer. open_monad.
  rewrite Hnet. cbn. split; reflexivity.
Qed.

Lemma uploadFileToServer_refused (fileId : string) (file : File)
    (a : App) (w w' : W) (r0 : Response) :
  net (mkRequest POST "/api/upload" (Some (mkForm (Some file) (Some fileId))) None) w
  = (w', Resolved r0) ->
  ok r0 = false ->
  let r := uploadFileToServer net fileId file (a, w) in
  returned r = true /\
  toasts (dom (fst (state_of r)))
  = (toasts (dom a) ++ [(("Failed to upload " ++ file_name file)%string, "success")])%list.
Proof.
  intros Hnet Hok. unfold uploadFileToServer. open_monad.
  rewrite Hnet. cbn [fst snd]. rewrite Hok. cbn. split; reflexivity.
Qed.

Lemma uploadFileToServer_frame (fileId : string) (file : File) (a : App) (w : W) :
  let r := uploadFileToServer net fileId file (a, w) in
  threw r = false /\
  files (fst (state_of r)) = files a /\
  currentHostUrl (fst (state_of r)) = currentHostUrl a.
Proof.
  unfold uploadFileToServer. open_monad.
  on_answer; [on_response|..]; cbn; repeat split; reflexivity.
Qed.

Lemma downloadFile_mobile (fileId fileName : string) (a : App) (w : W) :
  isMobile (userAgent a) = true ->
  downloadFile net fileId fileName (a, w)
  = Ok tt (handed_to_browser fileId fileName a, w).
Proof.
  intros Hm. unfold downloadFile. open_monad.
  cbn [userAgent emit set_log]. rewrite Hm. reflexivity.
Qed.

Lemma downloadFile_rejected (fileId fileName : string) (a : App) (w w' : W)
    (e : string) :
  isMobile (userAgent a) = false ->
  net (mkRequest GET (downloadUrl (currentHostUrl a) fileId) None None) w
  = (w', Rejected e) ->
  let r := downloadFile net fileId fileName (a, w) in
  returned r = true /\
  toasts (dom (fst (state_of r)))
  = (toasts (dom a) ++ [(("Failed to download " ++ fileName)%string, "error")])%list.
Proof.
  intros Hm Hnet. unfold downloadFile. open_monad.
  cbn [userAgent emit set_log]. rewrite Hm. cbn [fst snd].
  cbn [currentHostUrl appendProgressItem set_dom] in Hnet |- *.
  rewrite Hnet. cbn. split; reflexivity.
Qed.

Lemma downloadFile_pending (fileId fileName : string) (a : App) (w w' : W) :
  isMobile (userAgent a) = false ->
  net (mkRequest GET (downloadUrl (currentHostUrl a) fileId) None None) w
  = (w', Pending) ->
  let r := downloadFile net fileId fileName (a, w) in
  hangs r = true /\
  toasts (dom (fst (state_of r))) = toasts (dom a).
Proof.
  intros Hm Hnet. unfold downloadFile. open_monad.
  cbn [userAgent emit set_log]. rewrite Hm. cbn [fst snd].
  cbn [currentHostUrl appendProgressItem set_dom] in Hnet |- *.
  rewrite Hnet. cbn. split; reflexivity.
Qed.

(** The answer is an error status, or the stream breaks off. *)
Lemma downloadFile_broken (fileId fileName : string) (a : App) (w w' : W)
    (r0 : Response) :
  isMobile (userAgent a) = false ->
  net (mkRequest GET (downloadUrl (currentHostUrl a) fileId) None None) w
  = (w', Resolved r0) ->
  ok r0 && complete r0 = false ->
  let r := downloadFile net fileId fileName (a, w) in
  returned r = true /\
  toasts (dom (fst (state_of r)))
  = (toasts (dom a) ++ [(("Failed to download " ++ fileName)%string, "error")])%list.
Proof.
  intros Hm Hnet Hbad. unfold downloadFile. open_monad.
  cbn [userAgent emit set_log]. rewrite Hm. cbn [fst snd].
  cbn [currentHostUrl appendProgressItem set_dom] in Hnet |- *.
  rewrite Hnet. cbn [fst snd].
  destruct (ok r0); cbn [negb fst snd].
  - cbn in Hbad. rewrite Hbad. cbn [fst snd state_of returned].
    split; [reflexivity|].
    cbn [showToast emit set_log set_dom dom toasts set_toasts].
    rewrite pump_toasts. reflexivity.
  - cbn. split; reflexivity.
Qed.

Lemma downloadFile_frame (fileId fileName : string) (a : App) (w : W) :
  let r := downloadFile net fileId fileName (a, w) in
  threw r = false /\
  files (fst (state_of r)) = files a /\
  currentHostUrl (fst (state_of r)) = currentHostUrl a.
Proof.
  unfold downloadFile. open_monad. cbn [userAgent emit set_log].
  destruct (isMobile (userAgent a)); cbn [fst snd state_of threw].
  - repeat split; reflexivity.
  - on_answer.
    + destruct (ok r); cbn [negb fst snd state_of threw].
      * destruct (complete r); cbn [fst snd state_of threw];
          (split; [reflexivity|]);
          cbn [showToast emit set_log set_dom files currentHostUrl];
          rewrite pump_files, pump_currentHostUrl; split; reflexivity.
      * repeat split; reflexivity.
    + repeat split; reflexivity.
    + repeat split; reflexivity.
Qed.

Lemma connectToHost_never_throws (a : App) (w : W) :
  threw (connectToHost net (a, w)) = false.
Proof.
  unfold connectToHost. open_monad.
  destruct (trim (hostUrlInput (dom a))); [reflexivity|].
  on_answer; [|reflexivity|reflexivity].
  destruct (ok r); cbn [fst snd]; [|reflexivity].
  match goal with
  | |- context [loadAvailableFiles net (?x, ?y)] =>
      pose proof (proj1 (loadAvailableFiles_frame x y)) as H;
      destruct (loadAvailableFiles net (x, y)); [reflexivity | discriminate | reflexivity]
  end.
Qed.

End Failures.

Lemma no_timeout_of_page_effect (e : Effect) : page_effect e -> no_timeout e.
Proof.
  destruct e; cbn; tauto.
Qed.

(** C4, as the claim has it, fails: a host that accepts the connection
    and never answers leaves [connectToHost] parked at its [fetch]. The
    request carries no abort signal, the status line stays at
    "Connecting..." and no failure is ever shown. *)
Lemma connect_to_silent_host_hangs :
  let r := connectToHost silent (client_of desktop "http://192.168.1.5:8080", tt) in
  hangs r = true /\
  log (fst (state_of r))
  = [Fetch (mkRequest GET "http://192.168.1.5:8080/api/files" None None)] /\
  connectionStatus (dom (fst (state_of r))) = ("Connecting...", "info") /\
  failure_shown (fst (state_of r)) = false.
Proof. repeat split; reflexivity. Qed.

Example download_from_silent_host_hangs :
  let a := set_currentHostUrl (Some "http://192.168.1.5:8080")
             (client_of desktop "http://192.168.1.5:8080") in
  let r := downloadFile silent "k3x" "photo.jpg" (a, tt) in
  hangs r = true /\ toasts (dom (fst (state_of r))) = [].
Proof. split; reflexivity. Qed.

Example download_breaks_midway :
  let a := set_currentHostUrl (Some "http://192.168.1.5:8080")
             (client_of desktop "http://192.168.1.5:8080") in
  let r := downloadFile breaking "k3x" "photo.jpg" (a, tt) in
  returned r = true /\
  toasts (dom (fst (state_of r))) = [("Failed to download photo.jpg", "error")].
Proof. split; reflexivity. Qed.

(** C4, amended. The requests of [connectToHost], [loadAvailableFiles]
    and [downloadFile] (on a desktop browser) carry no timeout. When the
    request is rejected, as for a host that cannot be reached, or a
    download is answered with an error status or a stream that breaks off,
    the method returns and the failure is shown (status line, error note,
    error toast). When the request is never answered the method stays
    pending and shows nothing. *)
Theorem requests_have_no_timeout {W : Type}
    (net : Request -> W -> W * FetchOutcome) (a : App) (w : W)
    (fileId fileName : string) :
  trim (hostUrlInput (dom a)) <> "" ->
  isMobile (userAgent a) = false ->
  Forall no_timeout (log a) ->
  let connect := connectToHost net (a, w) in
  let list := loadAvailableFiles net (a, w) in
  let download := downloadFile net fileId fileName (a, w) in
  (Forall no_timeout (log (fst (state_of connect))) /\
   Forall no_timeout (log (fst (state_of list))) /\
   Forall no_timeout (log (fst (state_of download)))) /\
  match snd (net (mkRequest GET (testUrl (trim (hostUrlInput (dom a)))) None None) w) with
  | Rejected e =>
      returned connect = true /\
      connectionStatus (dom (fst (state_of connect)))
      = ("Connection failed: " ++ e, "error")
  | Pending =>
      hangs connect = true /\
      connectionStatus (dom (fst (state_of connect))) = ("Connecting...", "info")
  | Resolved _ => True
  end /\
  match snd (net (mkRequest GET (filesUrl (currentHostUrl a)) None None) w) with
  | Rejected e =>
      returned list = true /\
      availableFiles (dom (fst (state_of list)))
      = (availableFiles (dom a) ++ [LoadErrorNote])%list
  | Pending =>
      hangs list = true /\
      availableFiles (dom (fst (state_of list))) = availableFiles (dom a)
  | Resolved _ => True
  end /\
  match snd (net (mkRequest GET (downloadUrl (currentHostUrl a) fileId) None None) w) with
  | Rejected e =>
      returned download = true /\
      toasts (dom (fst (state_of download)))
      = (toasts (dom a) ++ [(("Failed to download " ++ fileName)%string, "error")])%list
  | Pending =>
      hangs download = true /\
      toasts (dom (fst (state_of download))) = toasts (dom a)
  | Resolved r =>
      if ok r && complete r then True
      else
        returned download = true /\
        toasts (dom (fst (state_of download)))
        = (toasts (dom a) ++ [(("Failed to download " ++ fileName)%string, "error")])%list
  end.
Proof.
  intros Hne Hm Hlog connect list download.
  split; [|split; [|split]].
  - repeat split.
    + apply (keeps_connectToHost no_timeout no_timeout_of_page_effect net (a, w) Hlog).
    + apply (keeps_loadAvailableFiles no_timeout no_timeout_of_page_effect net (a, w) Hlog).
    + apply (keeps_downloadFile no_timeout no_timeout_of_page_effect net fileId fileName
               (a, w) Hlog).
  - destruct (net (mkRequest GET (testUrl (trim (hostUrlInput (dom a)))) None None) w)
      as [w' [r | e |]] eqn:E; cbn [snd].
    + exact I.
    + exact (connectToHost_rejected net a w w' e Hne E).
    + exact (connectToHost_pending net a w w' Hne E).
  - destruct (net (mkRequest GET (filesUrl (currentHostUrl a)) None None) w)
      as [w' [r | e |]] eqn:E; cbn [snd].
    + exact I.
    + exact (loadAvailableFiles_rejected net a w w' e E).
    + exact (loadAvailableFiles_pending net a w w' E).
  - destruct (net (mkRequest GET (downloadUrl (currentHostUrl a) fileId) None None) w)
      as [w' [r | e |]] eqn:E; cbn [snd].
    + destruct (ok r && complete r) eqn:Eok; [exact I|].
      exact (downloadFile_broken net fileId fileName a w w' r Hm E Eok).
    + exact (downloadFile_rejected net fileId fileName a w w' e Hm E).
    + exact (downloadFile_pending net fileId fileName a w w' Hm E).
Qed.

Lemma requests_have_no_timeout_witness :
  let a := client_of desktop "http://192.168.1.5:8080" in
  returned (connectToHost unreachable (a, tt)) = true /\
  connectionStatus (dom (fst (state_of (connectToHost unreachable (a, tt)))))
  = ("Connection failed: Failed to fetch", "error").
Proof.
  refine (proj1 (proj2 (requests_have_no_timeout unreachable
            (client_of desktop "http://192.168.1.5:8080") tt "k3x" "photo.jpg" _ _ _))).
  - discriminate.
  - reflexivity.
  - constructor.
Defined.

(* --------------------------------------------------------------------- *)
(** ** Network failures and what the user sees *)
(* --------------------------------------------------------------------- *)

(** C5, as the claim has it, fails for downloads on a mobile browser:
    with a host that cannot be reached the method still returns, having
    shown only "Starting download" and queued "download started"; no
    request was made, so no failure can be caught or shown. *)
Lemma mobile_download_failure_goes_unreported :
  let a := set_currentHostUrl (Some "http://192.168.1.5:8080")
             (client_of phone "http://192.168.1.5:8080") in
  let r := downloadFile unreachable "k3x" "photo.jpg" (a, tt) in
  returned r = true /\
  toasts (dom (fst (state_of r))) = [("Starting download: photo.jpg", "info")] /\
  timers (fst (state_of r))
  = [ToastLater "photo.jpg download started! Check your downloads." "success"] /\
  log (fst (state_of r))
  = [Console "Downloading from: http://192.168.1.5:8080/api/download/k3x";
     Navigate "http://192.168.1.5:8080/api/download/k3x"] /\
  failure_shown (fst (state_of r)) = false.
Proof. repeat split; reflexivity. Qed.

Example desktop_download_failure_reported :
  let a := set_currentHostUrl (Some "http://192.168.1.5:8080")
             (client_of desktop "http://192.168.1.5:8080") in
  let r := downloadFile unreachable "k3x" "photo.jpg" (a, tt) in
  returned r = true /\ failure_shown (fst (state_of r)) = true.
Proof. split; reflexivity. Qed.

Example upload_failure_reported :
  let r := uploadFileToServer failing "k3x" photo (new_app desktop, tt) in
  returned r = true /\
  toasts (dom (fst (state_of r))) = [("Failed to upload photo.jpg", "success")].
Proof. split; reflexivity. Qed.

(** C5, amended. [uploadFileToServer], [loadAvailableFiles] and
    [downloadFile] never throw, and leave the file map and the host
    address as they were, so the user can try again. A failed upload
    (rejected, or answered with an error status) shows a toast naming the
    file; a failed catalog fetch (rejected, or a body that cannot be read)
    adds the error note to the list of available files; a failed download
    on a desktop browser (rejected, error status, or broken stream) shows
    an error toast. On a mobile browser [downloadFile] makes no request:
    it hands the URL to the browser and reports nothing about the
    outcome. *)
Theorem network_failures_are_reported {W : Type}
    (net : Request -> W -> W * FetchOutcome) (a : App) (w : W)
    (fileId fileName : string) (file : File) :
  let upload := uploadFileToServer net fileId file (a, w) in
  let list := loadAvailableFiles net (a, w) in
  let download := downloadFile net fileId fileName (a, w) in
  (threw upload = false /\ threw list = false /\ threw download = false) /\
  (files (fst (state_of upload)) = files a /\
   files (fst (state_of list)) = files a /\
   files (fst (state_of download)) = files a /\
   currentHostUrl (fst (state_of list)) = currentHostUrl a /\
   currentHostUrl (fst (state_of download)) = currentHostUrl a) /\
  match snd (net (mkRequest POST "/api/upload"
                    (Some (mkForm (Some file) (Some fileId))) None) w) with
  | Rejected _ =>
      returned upload = true /\
      toasts (dom (fst (state_of upload)))
      = (toasts (dom a) ++ [(("Error uploading " ++ file_name file)%string, "success")])%list
  | Resolved r =>
      if ok r then True
      else
        returned upload = true /\
        toasts (dom (fst (state_of upload)))
        = (toasts (dom a)
           ++ [(("Failed to upload " ++ file_name file)%string, "success")])%list
  | Pending => True
  end /\
  match snd (net (mkRequest GET (filesUrl (currentHostUrl a)) None None) w) with
  | Rejected _ =>
      returned list = true /\
      availableFiles (dom (fst (state_of list)))
      = (availableFiles (dom a) ++ [LoadErrorNote])%list
  | Resolved r =>
      match complete r, parsed r with
      | true, Some _ => True
      | _, _ =>
          returned list = true /\
          availableFiles (dom (fst (state_of list)))
          = (availableFiles (dom a) ++ [LoadErrorNote])%list
      end
  | Pending => True
  end /\
  if isMobile (userAgent a)
  then download = Ok tt (handed_to_browser fileId fileName a, w)
  else
    match snd (net (mkRequest GET (downloadUrl (currentHostUrl a) fileId) None None) w) with
    | Rejected _ =>
        returned download = true /\
        toasts (dom (fst (state_of download)))
        = (toasts (dom a) ++ [(("Failed to download " ++ fileName)%string, "error")])%list
    | Resolved r =>
        if ok r && complete r then True
        else
          returned download = true /\
          toasts (dom (fst (state_of download)))
          = (toasts (dom a)
             ++ [(("Failed to download " ++ fileName)%string, "error")])%list
    | Pending => True
    end.
Proof.
  intros upload list download.
  destruct (uploadFileToServer_frame net fileId file a w) as (Hu1 & Hu2 & Hu3).
  destruct (loadAvailableFiles_frame net a w) as (Hl1 & Hl2 & Hl3).
  destruct (downloadFile_frame net fileId fileName a w) as (Hd1 & Hd2 & Hd3).
  split; [repeat split; assumption|].
  split; [repeat split; assumption|].
  split; [|split].
  - destruct (net (mkRequest POST "/api/upload"
                     (Some (mkForm (Some file) (Some fileId))) None) w)
      as [w' [r | e |]] eqn:E; cbn [snd].
    + destruct (ok r) eqn:Eok; [exact I|].
      exact (uploadFileToServer_refused net fileId file a w w' r E Eok).
    + exact (uploadFileToServer_rejected net fileId file a w w' e E).
    + exact I.
  - destruct (net (mkRequest GET (filesUrl (currentHostUrl a)) None None) w)
      as [w' [r | e |]] eqn:E; cbn [snd].
    + destruct (complete r) eqn:Ec; [destruct (parsed r) eqn:Ep; [exact I|]|].
      * exact (loadAvailableFiles_unreadable net a w w' r E (or_intror Ep)).
      * exact (loadAvailableFiles_unreadable net a w w' r E (or_introl Ec)).
    + exact (loadAvailableFiles_rejected net a w w' e E).
    + exact I.
  - destruct (isMobile (userAgent a)) eqn:Hm.
    + exact (downloadFile_mobile net fileId fileName a w Hm).
    + destruct (net (mkRequest GET (downloadUrl (currentHostUrl a) fileId) None None) w)
        as [w' [r | e |]] eqn:E; cbn [snd].
      * destruct (ok r && complete r) eqn:Eok; [exact I|].
        exact (downloadFile_broken net fileId fileName a w w' r Hm E Eok).
      * exact (downloadFile_rejected net fileId fileName a w w' e Hm E).
      * exact I.
Qed.

(* --------------------------------------------------------------------- *)
(** ** The data channel *)
(* --------------------------------------------------------------------- *)

Example channel_message_fileChunk :
  handleDataChannelMessage (ParsedObject (Some "fileChunk")) (new_app desktop, tt)
  = Ok tt (set_log [Console "Received message:";
                    Console "Error handling data channel message:"]
                   (new_app desktop), tt).
Proof. reflexivity. Qed.

(** A message arriving on the data channel changes nothing but the
    console. *)
Lemma handleDataChannelMessage_inert {W : Type} (message : Parsed)
    (a : App) (w : W) :
  exists notes,
    handleDataChannelMessage message (a, w)
    = Ok tt (set_log (log a ++ List.map Console notes) a, w).
Proof.
  unfold handleDataChannelMessage. open_monad.
  destruct message as [| |[t|]]; cbn [fst snd].
  - exists ["Error handling data channel message:"]. reflexivity.
  - exists ["Received message:"; "Error handling data channel message:"].
    unfold emit. cbn. rewrite <- app_assoc. reflexivity.
  - destruct (String.eqb t "fileList");
      [|destruct (String.eqb t "fileChunk");
        [|destruct (String.eqb t "fileComplete")]];
      cbn [fst snd].
    1-3: exists ["Received message:"; "Error handling data channel message:"];
         unfold emit; cbn; rewrite <- app_assoc; reflexivity.
    exists ["Received message:"]. reflexivity.
  - exists ["Received message:"]. reflexivity.
Qed.

(** What [downloadFile] saves is the body of the answer to its GET of
    the download URL. *)
Lemma downloadFile_saves_the_response {W : Type}
    (net : Request -> W -> W * FetchOutcome) (fileId fileName : string)
    (a : App) (w : W) (name : string) (blob : bytes) :
  In (Save name blob) (log (fst (state_of (downloadFile net fileId fileName (a, w))))) ->
  In (Save name blob) (log a) \/
  (name = fileName /\
   exists w' r,
     net (mkRequest GET (downloadUrl (currentHostUrl a) fileId) None None) w
     = (w', Resolved r) /\
     blob = List.concat (chunks r)).
Proof.
  unfold downloadFile. open_monad. cbn [userAgent emit set_log].
  destruct (isMobile (userAgent a)); cbn [fst snd state_of].
  - cbn. intros H. apply in_app_or in H. destruct H as [H | [H | []]]; [|discriminate].
    apply in_app_or in H. destruct H as [H | [H | []]]; [now left | discriminate].
  - cbn [currentHostUrl appendProgressItem set_dom].
    destruct (net (mkRequest GET (downloadUrl (currentHostUrl a) fileId) None None) w)
      as [w' [r | e |]] eqn:E; cbn [fst snd state_of].
    + destruct (ok r); cbn [negb fst snd state_of].
      * destruct (complete r); cbn [fst snd state_of];
          cbn [showToast emit set_log set_dom log].
        -- intros H. apply in_app_or in H. destruct H as [H | [H | []]].
           ++ apply pump_log_in in H. destruct H as [H | [p H]]; [|discriminate].
              cbn in H. apply in_app_or in H. destruct H as [H | [H | []]]; [|discriminate].
              apply in_app_or in H. destruct H as [H | [H | []]]; [now left | discriminate].
           ++ injection H as <- <-. right. split; [reflexivity|].
              exists w', r. split; reflexivity.
        -- intros H. apply in_app_or in H. destruct H as [H | [H | []]]; [|discriminate].
           apply pump_log_in in H. destruct H as [H | [p H]]; [|discriminate].
           cbn in H. apply in_app_or in H. destruct H as [H | [H | []]]; [|discriminate].
           apply in_app_or in H. destruct H as [H | [H | []]]; [now left | discriminate].
      * cbn. intros H.
        apply in_app_or in H. destruct H as [H | [H | []]]; [|discriminate].
        apply in_app_or in H. destruct H as [H | [H | []]]; [|discriminate].
        apply in_app_or in H. destruct H as [H | [H | []]]; [now left | discriminate].
    + cbn. intros H.
      apply in_app_or in H. destruct H as [H | [H | []]]; [|discriminate].
      apply in_app_or in H. destruct H as [H | [H | []]]; [|discriminate].
      apply in_app_or in H. destruct H as [H | [H | []]]; [now left | discriminate].
    + cbn. intros H.
      apply in_app_or in H. destruct H as [H | [H | []]]; [|discriminate].
      apply in_app_or in H. destruct H as [H | [H | []]]; [now left | discriminate].
Qed.

(** C7. In every execution of the page (any network, any WebRTC stack,
    any sequence of user actions, channel messages and timers) nothing is
    ever sent on the data channel, and the only requests that carry file
    content are POSTs to [/api/upload]. A message received on the channel
    changes nothing but the console. The bytes [downloadFile] saves are
    those of the HTTP answer to its GET of [.../api/download/<id>]. *)
Theorem data_channel_carries_no_file {W : Type}
    (net : Request -> W -> W * FetchOutcome) (random : nat -> string) (rtc : Rtc)
    (ua : string) (w : W) (events : list Event) :
  let trace := log (fst (execution net random rtc ua w events)) in
  (forall data, ~ In (ChanSend data) trace) /\
  (forall q, In (Fetch q) trace ->
     req_body q = None \/ (req_method q = POST /\ req_url q = "/api/upload")) /\
  (forall message a (w0 : W), exists notes,
     handleDataChannelMessage message (a, w0)
     = Ok tt (set_log (log a ++ List.map Console notes) a, w0)) /\
  (forall fileId fileName a (w0 : W) name blob,
     In (Save name blob)
        (log (fst (state_of (downloadFile net fileId fileName (a, w0))))) ->
     In (Save name blob) (log a) \/
     (name = fileName /\
      exists w' r,
        net (mkRequest GET (downloadUrl (currentHostUrl a) fileId) None None) w0
        = (w', Resolved r) /\
        blob = List.concat (chunks r))).
Proof.
  intros trace.
  pose proof (execution_keeps page_effect (fun e H => H) net random rtc ua w events)
    as Hall.
  fold trace in Hall. rewrite Forall_forall in Hall.
  split; [|split; [|split]].
  - intros data Hin. exact (Hall _ Hin).
  - intros q Hin. exact (proj2 (Hall _ Hin)).
  - intros message a w0. apply handleDataChannelMessage_inert.
  - intros fileId fileName a w0 name blob.
    apply downloadFile_saves_the_response.
Qed.

Lemma data_channel_carries_no_file_witness :
    ~ In (ChanSend "photo.jpg")
         (log (fst (execution (Registry.net one_chunk) counting_draws
                      (RtcCandidates []) desktop (Registry.start 1000 "http://192.168.1.5:8080")
                      [FilesChosen [photo; notes];
                       ChannelMessage (ParsedObject (Some "fileChunk"));
                       HostUrlTyped "http://192.168.1.5:8080"; ConnectClicked;
                       DownloadClicked "0" "photo.jpg"]))).
Proof.
  exact (proj1 (data_channel_carries_no_file (Registry.net one_chunk) counting_draws
                  (RtcCandidates []) desktop (Registry.start 1000 "http://192.168.1.5:8080")
                  [FilesChosen [photo; notes];
                   ChannelMessage (ParsedObject (Some "fileChunk"));
                   HostUrlTyped "http://192.168.1.5:8080"; ConnectClicked;
                   DownloadClicked "0" "photo.jpg"]) "photo.jpg").
Defined.

(* --------------------------------------------------------------------- *)
(** ** The registry *)
(* --------------------------------------------------------------------- *)

Module RegistryFacts.
Import Registry RegistrySpec.












End RegistryFacts.

Module RegistryClaims.
Import Registry RegistrySpec RegistryFacts.




(** The end-to-end scenario of the design document, on a small file. *)
Example upload_list_download_remove :
  let r1 := fst (Upload (Some (file_bytes photo)) (Some "photo.jpg") "image/jpeg"
                        (start 1000 "")) in
  let r2 := fst (Remove "0" r1) in
  ListCatalog (start 1000 "") = [] /\
  ListCatalog r1 = [mkMeta "0" "photo.jpg" 5 "image/jpeg"] /\
  Download "0" r1
  = inr (mkShared "0" "photo.jpg" "image/jpeg" 5 (file_bytes photo)) /\
  snd (Remove "0" r1) = inr tt /\
  Download "0" r2 = inl NotFoundError /\
  snd (Remove "0" r2) = inl NotFoundError.
Proof. repeat split; reflexivity. Qed.

(** The host page asks for removal under the id it drew itself, which
    a registry that assigns its own ids does not know. *)
Example host_removal_misses_the_catalog :
  let s1 := state_of (handleFiles (net one_chunk) counting_draws [photo]
                        (new_app desktop, start 1000 "")) in
  let s2 := state_of (removeFile (net one_chunk) "0zyo82mvy" s1) in
  map_keys (files (fst s1)) = ["0zyo82mvy"] /\
  files (fst s2) = [] /\
  List.map meta_id (ListCatalog (snd s2)) = ["0"].
Proof. repeat split; reflexivity. Qed.

Example upload_ignores_suggested_id :
  ListCatalog (fst (serve one_chunk (upload_of photo (Some "k3x")) shelf))
  = ListCatalog (fst (serve one_chunk (upload_of photo (Some "0")) shelf)).
Proof. reflexivity. Qed.

Example twin_draws_do_not_collide_in_the_catalog :
  List.map meta_id
    (ListCatalog (snd (state_of (handleFiles (net one_chunk) twin_draws [photo; notes]
                                   (new_app desktop, start 1000 "")))))
  = ["0"; "1"].
Proof. reflexivity. Qed.

(** The host page keys its own map by the ids it draws: two equal
    draws leave one entry there, and two items with one id in the list. *)
Example twin_draws_collide_in_the_host_map :
  let a := fst (state_of (handleFiles (net one_chunk) twin_draws [photo; notes]
                            (new_app desktop, start 1000 ""))) in
  files a = [("4fzyo82mv", notes)] /\
  List.map item_id (fileList (dom a)) = ["4fzyo82mv"; "4fzyo82mv"].
Proof. split; reflexivity. Qed.






Example three_uploads_listed :
  List.map meta_id
    (ListCatalog (serve_all one_chunk
                    [upload_of notes (Some "a"); upload_of photo (Some "a");
                     upload_of notes None]
                    (start 1000 "")))
  = ["0"; "1"; "2"].
Proof. reflexivity. Qed.



End RegistryClaims.

(* --------------------------------------------------------------------- *)
(** ** Download progress *)
(* --------------------------------------------------------------------- *)

Example percent_third : percent 1 (Number_of_N 3) = RInt 33.
Proof. vm_compute. reflexivity. Qed.

(** 29 of 200 bytes is 14.5 percent; the binary64 product falls just
    below and rounds down. *)
Example percent_29_of_200 : percent 29 (Number_of_N 200) = RInt 14.
Proof. vm_compute. reflexivity. Qed.

Example percent_one_byte : percent 1 (Number_of_N 1) = RInt 100.
Proof. vm_compute. reflexivity. Qed.

Example percent_500MB : percent 524288000 (Number_of_N 524288000) = RInt 100.
Proof. vm_compute. reflexivity. Qed.

Example percent_no_length : percent 1024 (parseInt None) = RNaN.
Proof. vm_compute. reflexivity. Qed.



Module DownloadClaims.
Import Registry RegistrySpec RegistryFacts RegistryClaims.









Example download_photo_in_pairs :
  let a := set_currentHostUrl (Some "http://192.168.1.5:8080/") (client_of desktop "") in
  log (fst (state_of (downloadFile (net pairs_of) "0" "photo.jpg" (a, shelf))))
  = [Console "Downloading from: http://192.168.1.5:8080/api/download/0";
     Fetch (mkRequest GET "http://192.168.1.5:8080/api/download/0" None None);
     Progress "0" (RInt 40); Progress "0" (RInt 80); Progress "0" (RInt 100);
     Save "photo.jpg" [Byte.xff; Byte.xd8; Byte.xff; Byte.xe0; Byte.x00]].
Proof. vm_compute. reflexivity. Qed.

Example download_empty_file :
  let a := set_currentHostUrl (Some "http://192.168.1.5:8080") (client_of desktop "") in
  let r := downloadFile (net pairs_of) "1" "empty.bin" (a, shelf) in
  returned r = true /\
  log (fst (state_of r))
  = [Console "Downloading from: http://192.168.1.5:8080/api/download/1";
     Fetch (mkRequest GET "http://192.168.1.5:8080/api/download/1" None None);
     Save "empty.bin" []] /\
  toasts (dom (fst (state_of r))) = [("empty.bin downloaded successfully!", "success")].
Proof. vm_compute. repeat split; reflexivity. Qed.



End DownloadClaims.

(* ===================================================================== *)
(** * Further properties of the code *)
(* ===================================================================== *)

(* --------------------------------------------------------------------- *)
(** ** The host page: files, list and requests *)
(* --------------------------------------------------------------------- *)

Lemma requests_of_app (l l' : list Effect) :
  requests_of (l ++ l') = (requests_of l ++ requests_of l')%list.
Proof.
  induction l as [|e l IH]; [reflexivity|].
  destruct e; cbn; now rewrite ?IH.
Qed.

Lemma In_requests_of (q : Request) (l : list Effect) :
  In (Fetch q) l -> In q (requests_of l).
Proof.
  induction l as [|e l IH]; [contradiction|].
  intros [-> | Hin]; [now left|].
  destruct e; cbn; auto.
Qed.

Section JSMapMore.
Context {V : Type}.

Lemma map_set_fresh (key : string) (v : V) (m : JSMap V) :
~ In key (map_keys m) -> map_set key v m = (m ++ [(key, v)])%list.
Proof.
induction m as [|[k' v'] m IH]; intros Hnot; cbn.
- reflexivity.
- destruct (String.eqb k' key) eqn:E.
  + apply String.eqb_eq in E. exfalso. apply Hnot. now left.
  + rewrite IH; [reflexivity|]. intros Hin. apply Hnot. now right.
Qed.

Lemma map_get_set_same (key : string) (v : V) (m : JSMap V) :
map_get key (map_set key v m) = Some v.
Proof.
induction m as [|[k' v'] m IH]; cbn.
- now rewrite String.eqb_refl.
- destruct (String.eqb k' key) eqn:E; cbn; now rewrite E.
Qed.

Lemma map_set_keys_known (key : string) (v : V) (m : JSMap V) :
In key (map_keys m) -> map_keys (map_set key v m) = map_keys m.
Proof.
induction m as [|[k' v'] m IH]; intros Hin; [contradiction|]. cbn.
destruct (String.eqb k' key) eqn:E; [reflexivity|]. cbn. f_equal.
apply IH. destruct Hin as [Hk | Hin]; [|exact Hin].
cbn in Hk. apply String.eqb_neq in E. contradiction.
Qed.

Lemma map_delete_absent (key : string) (m : JSMap V) :
map_get key m = None -> map_delete key m = m.
Proof.
induction m as [|[k' v'] m IH]; intros Hnone; cbn in *; [reflexivity|].
destruct (String.eqb k' key); [discriminate|]. now rewrite IH.
Qed.
End JSMapMore.

(** The keys after setting fresh, pairwise distinct ids one by one. *)
Lemma fold_map_set_keys (ids : list (string * File)) :
  forall m : JSMap File,
    NoDup (map_keys m ++ List.map fst ids) ->
    map_keys (fold_left (fun m '(i, f) => map_set i f m) ids m)
    = (map_keys m ++ List.map fst ids)%list.
Proof.
  induction ids as [|[i f] ids IH]; intros m Hnd; cbn [fold_left List.map fst] in *.
  - now rewrite app_nil_r.
  - assert (Hfresh : ~ In i (map_keys m)).
    { intros Hin. apply NoDup_remove_2 in Hnd. apply Hnd.
      apply in_or_app. now left. }
    rewrite (map_set_fresh i f m Hfresh).
    rewrite IH.
    + unfold map_keys. rewrite map_app, <- app_assoc. reflexivity.
    + unfold map_keys. rewrite map_app, <- app_assoc. exact Hnd.
Qed.

Lemma drawn_cons (random : nat -> string) (first : nat) (f : File) (fs : list File) :
  drawn random first (f :: fs)
  = (generateId (random first), f) :: drawn random (S first) fs.
Proof. reflexivity. Qed.

Lemma rebuilt_list_mirrors_map (a : App) :
  list_mirrors_map (updateShareInfo (updateFileList a)).
Proof.
  unfold list_mirrors_map.
  change (fileList (dom (updateShareInfo (updateFileList a))))
    with (fileList (dom (updateFileList a))).
  now rewrite updateFileList_ids.
Qed.

Section HostPage.
Context {W : Type}.
Variable net : Request -> W -> W * FetchOutcome.
Variable random : nat -> string.

(** An upload that is answered or rejected: the method returns, having
  made its one request and touched neither the map nor the list. *)
Lemma uploadFileToServer_settled (fileId : string) (file : File) (a : App) (w : W) :
snd (net (uploadRequest fileId file) w) <> Pending ->
exists a1 w1,
  uploadFileToServer net fileId file (a, w) = Ok tt (a1, w1) /\
  files a1 = files a /\
  fileList (dom a1) = fileList (dom a) /\
  draws a1 = draws a /\
  serverUrl a1 = serverUrl a /\
  requests_of (log a1) = (requests_of (log a) ++ [uploadRequest fileId file])%list.
Proof.
intros Hs. unfold uploadFileToServer. open_monad. fold (uploadRequest fileId file).
destruct (net (uploadRequest fileId file) w) as [w1 [r | e |]]; cbn [fst snd] in *.
- destruct (ok r); cbn [fst snd]; eexists; eexists;
    (split; [reflexivity|]); cbn; rewrite !requests_of_app; cbn;
    rewrite ?app_nil_r; repeat split; reflexivity.
- eexists. eexists. split; [reflexivity|]. cbn. rewrite !requests_of_app. cbn.
  rewrite ?app_nil_r. repeat split; reflexivity.
- congruence.
Qed.

Lemma handleFiles_loop_settled (fs : list File) :
settles net ->
forall a w,
exists a' w',
  handleFiles_loop net random fs (a, w) = Ok tt (a', w') /\
  fileList (dom a')
  = (fileList (dom a)
     ++ List.map (fun '(i, f) => createFileItem f i) (drawn random (draws a) fs))%list /\
  files a'
  = fold_left (fun m '(i, f) => map_set i f m) (drawn random (draws a) fs) (files a) /\
  serverUrl a' = serverUrl a /\
  requests_of (log a')
  = (requests_of (log a)
     ++ List.map (fun '(i, f) => uploadRequest i f) (drawn random (draws a) fs))%list.
Proof.
intros Hs. induction fs as [|file rest IH]; intros a w.
- exists a, w. cbn. rewrite !app_nil_r. repeat split; reflexivity.
- cbn [handleFiles_loop]. unfold nextId. open_monad.
  set (fileId := generateId (random (draws a))).
  set (a0 := set_files (map_set fileId file (files (set_draws (S (draws a)) a)))
                       (set_draws (S (draws a)) a)).
  destruct (uploadFileToServer_settled fileId file a0 w (Hs _ _))
    as (a1 & w1 & E1 & Hf1 & Hl1 & Hd1 & Hu1 & Hr1).
  rewrite E1. cbn [fst snd].
  destruct (IH (appendFileItem (createFileItem file fileId) a1) w1)
    as (a' & w' & E & Hl & Hf & Hu & Hr).
  exists a', w'. split; [exact E|].
  rewrite drawn_cons. fold fileId.
  assert (Hd : draws (appendFileItem (createFileItem file fileId) a1) = S (draws a))
    by (cbn; rewrite Hd1; reflexivity).
  rewrite Hd in Hl, Hf, Hr.
  split; [|split; [|split]].
  + rewrite Hl. cbn. rewrite Hl1. cbn. rewrite <- app_assoc. reflexivity.
  + rewrite Hf. cbn. rewrite Hf1. reflexivity.
  + rewrite Hu. cbn. rewrite Hu1. reflexivity.
  + rewrite Hr. cbn [log appendFileItem set_dom]. rewrite Hr1. cbn.
    rewrite <- app_assoc. reflexivity.
Qed.


(** X2. If the list on screen showed the map before, and the ids drawn
  are new and pairwise distinct, it shows the map after [handleFiles]. *)
Theorem handleFiles_keeps_list_and_map_in_step (fs : list File) (a : App) (w : W) :
settles net ->
list_mirrors_map a ->
NoDup (map_keys (files a) ++ List.map fst (drawn random (draws a) fs)) ->
list_mirrors_map (fst (state_of (handleFiles net random fs (a, w)))).
Proof.
intros Hs Hm Hnd.
destruct (handleFiles_loop_settled fs Hs a w) as (a' & w' & E & Hl & Hf & Hu & Hr).
unfold handleFiles, bind. rewrite E. cbn [state_of fst modify].
unfold list_mirrors_map in *.
change (fileList (dom (updateShareInfo a'))) with (fileList (dom a')).
change (files (updateShareInfo a')) with (files a').
rewrite Hl, Hf, fold_map_set_keys by exact Hnd.
rewrite map_app, Hm. f_equal.
rewrite List.map_map. apply List.map_ext. now intros [i f].
Qed.

(** X3. When the upload of the first file is never answered,
  [handleFiles] stays pending: that file is in the map but not in the
  list, and none of the files after it is touched. *)
Theorem handleFiles_stalls_at_first_silent_upload
  (file : File) (rest : list File) (a : App) (w w' : W) :
net (uploadRequest (generateId (random (draws a))) file) w = (w', Pending) ->
exists a',
  handleFiles net random (file :: rest) (a, w) = Hang (a', w') /\
  files a' = map_set (generateId (random (draws a))) file (files a) /\
  fileList (dom a') = fileList (dom a) /\
  draws a' = S (draws a) /\
  requests_of (log a')
  = (requests_of (log a) ++ [uploadRequest (generateId (random (draws a))) file])%list.
Proof.
intros Hnet. unfold handleFiles. cbn [handleFiles_loop].
unfold nextId, uploadFileToServer. open_monad.
fold (uploadRequest (generateId (random (draws a))) file). rewrite Hnet.
cbn [fst snd]. eexists. split; [reflexivity|].
cbn. rewrite requests_of_app. cbn. repeat split; reflexivity.
Qed.

(** X4. When the removal request is answered or rejected, [removeFile]
  returns with the list on screen rebuilt from the map (so the two
  agree, whatever they were before), the share panel showing the server
  URL exactly if a file is left and the URL is known, and one DELETE
  request made for the id. *)
Theorem removeFile_rebuilds_the_page (fileId : string) (a : App) (w : W) :
snd (net (mkRequest DELETE ("/api/remove-file/" ++ fileId) None None) w) <> Pending ->
exists a' w',
  removeFile net fileId (a, w) = Ok tt (a', w') /\
  fileList (dom a')
  = List.map (fun '(i, f) => createFileItem f i) (map_delete fileId (files a)) /\
  list_mirrors_map a' /\
  shareUrl (dom a')
  = match map_delete fileId (files a), serverUrl a with
    | [], _ => None
    | _, EmptyString => None
    | _, url => Some url
    end /\
  requests_of (log a')
  = (requests_of (log a)
     ++ [mkRequest DELETE ("/api/remove-file/" ++ fileId) None None])%list.
Proof.
intros Hs. unfold removeFile. open_monad.
destruct (net (mkRequest DELETE ("/api/remove-file/" ++ fileId) None None) w)
  as [w1 [r | e |]]; cbn [fst snd] in *; [| |congruence].
- destruct (ok r); cbn [fst snd]; eexists; eexists; (split; [reflexivity|]);
    (split; [reflexivity|]);
    (split; [apply rebuilt_list_mirrors_map|]);
    (split; [cbn; destruct (map_delete fileId (files a)); reflexivity|]);
    cbn; rewrite !requests_of_app; cbn; rewrite ?app_nil_r; reflexivity.
- eexists. eexists. split; [reflexivity|]. split; [reflexivity|].
  split.
  + apply rebuilt_list_mirrors_map.
  + split; [cbn; destruct (map_delete fileId (files a)); reflexivity|].
    cbn. rewrite !requests_of_app. cbn. rewrite ?app_nil_r. reflexivity.
Qed.

(** X5. For an id the map does not hold, [removeFile] leaves the map
  as it is and asks the server all the same. *)
Theorem removeFile_of_unknown_id (fileId : string) (a : App) (w : W) :
map_has fileId (files a) = false ->
let r := removeFile net fileId (a, w) in
files (fst (state_of r)) = files a /\
In (mkRequest DELETE ("/api/remove-file/" ++ fileId) None None)
   (requests_of (log (fst (state_of r)))).
Proof.
intros Hno. unfold map_has in Hno.
destruct (map_get fileId (files a)) eqn:Eg; [discriminate|].
unfold removeFile. open_monad.
destruct (net (mkRequest DELETE ("/api/remove-file/" ++ fileId) None None) w)
  as [w1 [r | e |]]; cbn [fst snd state_of];
  [destruct (ok r); cbn [fst snd state_of]|..];
  (split; [cbn; now apply map_delete_absent|]);
  apply In_requests_of; cbn; repeat (rewrite in_app_iff); cbn [In]; auto 10.
Qed.

End HostPage.

(* --------------------------------------------------------------------- *)
(** ** The client page: connecting and listing *)
(* --------------------------------------------------------------------- *)



Section ClientPage.
Context {W : Type}.
Variable net : Request -> W -> W * FetchOutcome.
Variable random : nat -> string.


Lemma loadAvailableFiles_userAgent (a : App) (w : W) :
userAgent (fst (state_of (loadAvailableFiles net (a, w)))) = userAgent a.
Proof.
unfold loadAvailableFiles. open_monad. cbn [currentHostUrl emit set_log].
on_answer; [on_response|..]; reflexivity.
Qed.

Lemma connectToHost_currentHostUrl (a : App) (w : W) :
currentHostUrl (fst (state_of (connectToHost net (a, w))))
= match trim (hostUrlInput (dom a)) with
  | EmptyString => currentHostUrl a
  | hostUrl =>
      match snd (net (mkRequest GET (testUrl hostUrl) None None) w) with
      | Resolved r => if ok r then Some hostUrl else currentHostUrl a
      | _ => currentHostUrl a
      end
  end.
Proof.
unfold connectToHost. open_monad.
destruct (trim (hostUrlInput (dom a))) as [|c u]; [reflexivity|].
cbn [fst snd].
destruct (net (mkRequest GET (testUrl (String c u)) None None) w)
  as [w1 [r | e |]]; cbn [fst snd state_of]; [|reflexivity|reflexivity].
destruct (ok r); cbn [fst snd]; [|reflexivity].
match goal with
| |- context [loadAvailableFiles net (?x, ?y)] =>
    pose proof (loadAvailableFiles_frame net x y) as (_ & _ & Hc);
    destruct (loadAvailableFiles net (x, y)) as [? []|? []|[]];
    cbn in Hc |- *; exact Hc
end.
Qed.

(** X7. [connectToHost] takes the trimmed entry as the current host
  exactly when its probe was answered with a 2xx status; in every other
  case (no entry, error status, rejection, no answer) the current host
  stays what it was. What the catalog fetch that follows does has no
  part in it. *)
Theorem connectToHost_sets_host_only_when_probe_ok (a : App) (w : W) :
currentHostUrl (fst (state_of (connectToHost net (a, w))))
= match trim (hostUrlInput (dom a)) with
  | EmptyString => currentHostUrl a
  | hostUrl =>
      match snd (net (mkRequest GET (testUrl hostUrl) None None) w) with
      | Resolved r => if ok r then Some hostUrl else currentHostUrl a
      | _ => currentHostUrl a
      end
  end.
Proof. exact (connectToHost_currentHostUrl a w). Qed.

Lemma connectToHost_userAgent (a : App) (w : W) :
userAgent (fst (state_of (connectToHost net (a, w)))) = userAgent a.
Proof.
unfold connectToHost. open_monad.
destruct (trim (hostUrlInput (dom a))) as [|c u]; [reflexivity|].
cbn [fst snd].
destruct (net (mkRequest GET (testUrl (String c u)) None None) w)
  as [w1 [r | e |]]; cbn [fst snd state_of]; [|reflexivity|reflexivity].
destruct (ok r); cbn [fst snd]; [|reflexivity].
match goal with
| |- context [loadAvailableFiles net (?x, ?y)] =>
    pose proof (loadAvailableFiles_userAgent x y) as Hu;
    destruct (loadAvailableFiles net (x, y)) as [? []|? []|[]];
    cbn in Hu |- *; exact Hu
end.
Qed.

(** X8. When the catalog request is answered with a body that reads as
  JSON, [loadAvailableFiles] replaces what the list of available files
  showed by the heading and one entry per file of the catalog, in order,
  each with the id and name its download button passes on, and says how
  many it found; a catalog that is empty or has no [files] member gives
  the heading and the "No files shared yet" note and no toast. The
  status of the answer is not looked at. *)
Theorem loadAvailableFiles_shows_the_catalog
  (a : App) (w w' : W) (r : Response) (data : Json) :
net (mkRequest GET (filesUrl (currentHostUrl a)) None None) w = (w', Resolved r) ->
complete r = true ->
parsed r = Some data ->
exists a',
  loadAvailableFiles net (a, w) = Ok tt (a', w') /\
  availableFiles (dom a')
  = AvailableHeading ::
    match json_files data with
    | Some (file :: more) =>
        List.map (fun f => AvailableFile (getFileIcon (meta_type f)) (meta_name f)
                             (formatFileSize (meta_size f)) (meta_id f))
                 (file :: more)
    | _ => [NoFilesNote]
    end /\
  toasts (dom a')
  = (toasts (dom a)
     ++ match json_files data with
        | Some (file :: more) =>
            [(("Found " ++ N_toString (N.of_nat (List.length (file :: more)))
               ++ " file(s) to download")%string, "success")]
        | _ => []
        end)%list.
Proof.
intros Hnet Hc Hp. unfold loadAvailableFiles. open_monad.
cbn [currentHostUrl emit set_log]. rewrite Hnet. cbn [fst snd].
rewrite Hc, Hp. cbn [fst snd].
destruct (json_files data) as [[|file more]|]; cbn [fst snd];
  eexists; (split; [reflexivity|]); cbn; rewrite ?app_nil_r; split; reflexivity.
Qed.

Lemma downloadFile_asks_the_current_host (fileId fileName : string) (a : App) (w : W) :
let url := downloadUrl (currentHostUrl a) fileId in
let trace := log (fst (state_of (downloadFile net fileId fileName (a, w)))) in
if isMobile (userAgent a)
then In (Navigate url) trace
else In (Fetch (mkRequest GET url None None)) trace.
Proof.
intros url trace. subst trace. unfold downloadFile. open_monad.
cbn [userAgent emit set_log].
destruct (isMobile (userAgent a)); cbn [fst snd state_of].
- cbn. repeat (rewrite in_app_iff); cbn [In]. auto.
- cbn [currentHostUrl appendProgressItem set_dom]. fold url.
  assert (Hstart : forall (l : list Effect) x, In (Fetch (mkRequest GET url None None))
            ((l ++ [x]) ++ [Fetch (mkRequest GET url None None)])).
  { intros l x. apply in_or_app. right. now left. }
  destruct (net (mkRequest GET url None None) w) as [w1 [r | e |]];
    cbn [fst snd state_of].
  + destruct (ok r); cbn [negb fst snd state_of].
    * destruct (complete r); cbn [fst snd state_of];
        cbn [showToast emit set_log set_dom log];
        repeat (rewrite in_app_iff; left);
        match goal with
        | |- In _ (log (pump ?i ?t ?l ?v ?x)) =>
            destruct (pump_frame i t v l x) as (items & extra & E); rewrite E
        end; cbn; repeat (rewrite in_app_iff); cbn [In]; auto 10.
    * cbn. repeat (rewrite in_app_iff); cbn [In]. auto 10.
  + cbn. repeat (rewrite in_app_iff); cbn [In]. auto 10.
  + cbn. repeat (rewrite in_app_iff); cbn [In]. auto 10.
Qed.

(** X9. The user types a host address, connects, and clicks Download.
  If the probe was answered with a 2xx status, the download goes to that
  host: a desktop browser requests, and a mobile browser navigates to,
  [downloadUrl] of the trimmed address, whatever the catalog fetch in
  between did. *)
Theorem download_goes_to_the_connected_host
  (text fileId fileName : string) (a : App) (w w' : W) (r : Response) :
trim text <> "" ->
net (mkRequest GET (testUrl (trim text)) None None) w = (w', Resolved r) ->
ok r = true ->
let url := downloadUrl (Some (trim text)) fileId in
let trace :=
  log (fst (run net random
              [HostUrlTyped text; ConnectClicked; DownloadClicked fileId fileName]
              (a, w))) in
if isMobile (userAgent a)
then In (Navigate url) trace
else In (Fetch (mkRequest GET url None None)) trace.
Proof.
intros Hne Hnet Hok url trace. subst trace. cbn [run handle].
change (state_of (modify (fun a0 : App => set_dom (set_hostUrlInput text (dom a0)) a0)
                         (a, w)))
  with (set_dom (set_hostUrlInput text (dom a)) a, w).
set (a1 := set_dom (set_hostUrlInput text (dom a)) a).
pose proof (connectToHost_currentHostUrl a1 w) as Hc.
pose proof (connectToHost_userAgent a1 w) as Hu.
assert (Hin : hostUrlInput (dom a1) = text) by reflexivity.
rewrite Hin in Hc.
destruct (trim text) as [|c u] eqn:Et; [congruence|].
cbv beta iota zeta in Hc. rewrite Hnet in Hc. cbn [snd] in Hc. rewrite Hok in Hc.
destruct (state_of (connectToHost net (a1, w))) as [a2 w2] eqn:E2.
cbn [fst] in Hc, Hu.
pose proof (downloadFile_asks_the_current_host fileId fileName a2 w2) as Hd.
cbn zeta in Hd. rewrite Hc, Hu in Hd. exact Hd.
Qed.

End ClientPage.

(* --------------------------------------------------------------------- *)
(** ** Downloads: progress without a length, repeated downloads *)
(* --------------------------------------------------------------------- *)

Lemma percent_of_NaN (loaded : N) : percent loaded NaN = RNaN.
Proof.
  unfold percent, js_div, js_mul, NaN.
  destruct (Number_of_N loaded); reflexivity.
Qed.

Lemma map_running_const {A : Type} (x : A) (values : list bytes) :
  forall loaded,
    List.map (fun _ => x) (running loaded values) = List.map (fun _ => x) values.
Proof.
  induction values as [|value rest IH]; intros loaded; cbn; [reflexivity|].
  now rewrite IH.
Qed.

Lemma set_progress_app (fileId text : string) (items items' tail : list ProgressItem) :
  set_progress fileId text items = Some items' ->
  set_progress fileId text (items ++ tail) = Some (items' ++ tail)%list.
Proof.
  revert items'. induction items as [|it rest IH]; intros items' H; [discriminate|].
  cbn in H |- *. destruct (String.eqb (progress_id it) fileId).
  - injection H as <-. reflexivity.
  - destruct (set_progress fileId text rest) as [rest'|]; [|discriminate].
    injection H as <-. now rewrite (IH rest' eq_refl).
Qed.

Lemma set_progress_length (fileId text : string) (items items' : list ProgressItem) :
  set_progress fileId text items = Some items' ->
  List.length items' = List.length items.
Proof.
  revert items'. induction items as [|it rest IH]; intros items' H; [discriminate|].
  cbn in H. destruct (String.eqb (progress_id it) fileId).
  - injection H as <-. reflexivity.
  - destruct (set_progress fileId text rest) as [rest'|]; [|discriminate].
    injection H as <-. cbn. now rewrite (IH rest' eq_refl).
Qed.

(** While an earlier element carries the id, [pump] never writes into
    the last one. *)
Lemma pump_leaves_the_last (fileId : string) (total : Number) (values : list bytes) :
  forall loaded a items last,
    progressList (dom a) = (items ++ [last])%list ->
    (exists item, In item items /\ progress_id item = fileId) ->
    exists items',
      progressList (dom (pump fileId total loaded values a)) = (items' ++ [last])%list /\
      List.length items' = List.length items.
Proof.
  induction values as [|value rest IH]; intros loaded a items last Hl Hhas; cbn [pump].
  - now exists items.
  - destruct (set_progress_some fileId
                (Rounded_toString (percent (loaded + N.of_nat (List.length value)) total)
                 ++ "%") items Hhas) as (items1 & E1 & Hhas1).
    pose proof (set_progress_app _ _ _ _ [last] E1) as E2.
    pose proof (set_progress_length _ _ _ _ E1) as Hlen.
    destruct (IH (loaded + N.of_nat (List.length value))
                (write_progress fileId
                   (percent (loaded + N.of_nat (List.length value)) total) a)
                items1 last) as (items' & E & Hlen').
    + unfold write_progress. rewrite Hl, E2. reflexivity.
    + exact Hhas1.
    + exists items'. split; [exact E | congruence].
Qed.

Section Downloads.
Context {W : Type}.
Variable net : Request -> W -> W * FetchOutcome.

(** X10. A desktop download whose answer has no readable
  Content-Length (the header is missing or does not start with a digit)
  still completes: every progress report is NaN, and the bytes of all
  chunks are saved under the file name with the success toast. *)
Theorem download_without_length_still_saves
  (fileId fileName : string) (a : App) (w w' : W) (r : Response) :
isMobile (userAgent a) = false ->
net (mkRequest GET (downloadUrl (currentHostUrl a) fileId) None None) w
= (w', Resolved r) ->
ok r = true ->
complete r = true ->
parseInt (content_length r) = NaN ->
exists a',
  downloadFile net fileId fileName (a, w) = Ok tt (a', w') /\
  log a'
  = (log a
     ++ [Console ("Downloading from: " ++ downloadUrl (currentHostUrl a) fileId)%string;
         Fetch (mkRequest GET (downloadUrl (currentHostUrl a) fileId) None None)]
     ++ List.map (fun _ => Progress fileId RNaN) (chunks r)
     ++ [Save fileName (List.concat (chunks r))])%list /\
  toasts (dom a')
  = (toasts (dom a)
     ++ [((fileName ++ " downloaded successfully!")%string, "success")])%list.
Proof.
intros Hm Hnet Hok Hc Hnan. unfold downloadFile. open_monad.
cbn [userAgent emit set_log]. rewrite Hm. cbn [fst snd].
cbn [currentHostUrl appendProgressItem set_dom] in Hnet |- *.
rewrite Hnet. cbn [fst snd]. rewrite Hok. cbn [negb fst snd].
rewrite Hc. cbn [fst snd]. rewrite Hnan.
eexists. split; [reflexivity|].
cbn [showToast emit set_log set_dom log dom toasts set_toasts].
rewrite pump_toasts. cbn [dom toasts set_progressList set_dom emit set_log].
split; [|reflexivity].
rewrite pump_log.
- cbn [log appendProgressItem emit set_log set_dom].
  rewrite <- !app_assoc. cbn [app].
  rewrite (List.map_ext _ (fun _ => Progress fileId RNaN))
    by (intros n; now rewrite percent_of_NaN).
  now rewrite map_running_const.
- eexists. split.
  + cbn [progressList dom set_dom set_progressList emit set_log appendProgressItem].
    apply in_or_app. right. left. reflexivity.
  + reflexivity.
Qed.

(** X11. When the page already holds a progress element for the id (the
  file was downloaded before), a further desktop download of it writes
  its progress into that earlier element: the element it adds for
  itself is still at "0%" when the download has completed. *)
Theorem repeated_download_leaves_its_bar_at_zero
  (fileId fileName : string) (a : App) (w w' : W) (r : Response) :
has_progress fileId a ->
isMobile (userAgent a) = false ->
net (mkRequest GET (downloadUrl (currentHostUrl a) fileId) None None) w
= (w', Resolved r) ->
ok r = true ->
complete r = true ->
exists a' items,
  downloadFile net fileId fileName (a, w) = Ok tt (a', w') /\
  progressList (dom a') = (items ++ [mkProgress fileName fileId "0%" "0%"])%list /\
  List.length items = List.length (progressList (dom a)).
Proof.
intros Hhas Hm Hnet Hok Hc. unfold downloadFile. open_monad.
cbn [userAgent emit set_log]. rewrite Hm. cbn [fst snd].
cbn [currentHostUrl appendProgressItem set_dom] in Hnet |- *.
rewrite Hnet. cbn [fst snd]. rewrite Hok. cbn [negb fst snd].
rewrite Hc. cbn [fst snd].
match goal with
| |- context [pump ?i ?t ?l ?v ?x] =>
    destruct (pump_leaves_the_last i t v l x (progressList (dom a))
                (mkProgress fileName fileId "0%" "0%")) as (items & E & Hlen);
    [reflexivity | exact Hhas |]
end.
eexists. exists items. split; [reflexivity|].
cbn [showToast emit set_log set_dom dom progressList set_toasts].
split; [exact E | exact Hlen].
Qed.

End Downloads.

(* --------------------------------------------------------------------- *)
(** ** Which browsers count as mobile *)
(* --------------------------------------------------------------------- *)

Lemma toLowerCase_app (s t : string) :
  toLowerCase (s ++ t) = toLowerCase s ++ toLowerCase t.
Proof.
  induction s as [|c s IH]; cbn; [reflexivity | now rewrite IH].
Qed.

Lemma prefix_append (t s : string) : String.prefix t (t ++ s) = true.
Proof.
  induction t as [|c t IH]; cbn.
  - now destruct s.
  - destruct (ascii_dec c c); [exact IH | congruence].
Qed.

Lemma includes_prefix (s t : string) : String.prefix t s = true -> includes s t = true.
Proof.
  intros H. destruct s; cbn [includes]; rewrite H; reflexivity.
Qed.

Lemma includes_inside (pre t post : string) : includes (pre ++ t ++ post) t = true.
Proof.
  induction pre as [|c pre IH]; cbn [append].
  - apply includes_prefix, prefix_append.
  - cbn [includes]. rewrite IH. apply orb_true_r.
Qed.

(** X12. A user agent that contains one of the words mobile, android,
    iphone, ipad, wherever it stands and however it is capitalised, makes
    [downloadFile] take the mobile path. *)
Theorem isMobile_finds_the_word_in_any_case (pre word post keyword : string) :
  In keyword mobile_words ->
  toLowerCase word = keyword ->
  isMobile (pre ++ word ++ post) = true.
Proof.
  intros Hin Hw. unfold isMobile. rewrite !toLowerCase_app, Hw.
  pose proof (includes_inside (toLowerCase pre) keyword (toLowerCase post)) as H.
  destruct Hin as [<- | [<- | [<- | [<- | []]]]]; rewrite H;
    rewrite ?orb_true_r; reflexivity.
Qed.

(* --------------------------------------------------------------------- *)
(** ** The address read from an ICE candidate *)
(* --------------------------------------------------------------------- *)

Lemma take_drop_digits (s : string) : take_digits s ++ drop_digits s = s.
Proof.
  induction s as [|c s IH]; [reflexivity|]. cbn.
  destruct (is_digit c); cbn; [now rewrite IH | reflexivity].
Qed.

Lemma take_digits_all_digits (s : string) : all_digits (take_digits s) = true.
Proof.
  induction s as [|c s IH]; [reflexivity|]. cbn.
  destruct (is_digit c) eqn:E; cbn; [now rewrite E | reflexivity].
Qed.

Lemma digits1_spec (s ds rest : string) :
  digits1 s = Some (ds, rest) -> s = ds ++ rest /\ digit_group ds.
Proof.
  unfold digits1. intros H.
  pose proof (take_drop_digits s) as Hs.
  pose proof (take_digits_all_digits s) as Hd.
  destruct (take_digits s) as [|c t]; [discriminate|].
  injection H as <- <-. split; [now symmetry|]. split; [discriminate | exact Hd].
Qed.

Lemma digits_dot_spec (s group rest : string) :
  digits_dot s = Some (group, rest) ->
  exists ds, group = ds ++ "." /\ s = ds ++ "." ++ rest /\ digit_group ds.
Proof.
  unfold digits_dot. intros H.
  destruct (digits1 s) as [[ds r]|] eqn:E; [|discriminate].
  destruct (digits1_spec s ds r E) as [Hs Hg].
  destruct r as [|c r]; [discriminate|].
  destruct (Ascii.eqb_spec c "."%char) as [->|Hne].
  - injection H as <- <-. exists ds. split; [reflexivity | split; assumption].
  - exfalso. revert H.
    destruct c as [[] [] [] [] [] [] [] []]; try discriminate.
    now contradiction Hne.
Qed.

Lemma ipv4_here_spec (s ip : string) :
  ipv4_here s = Some ip -> dotted_quad ip /\ exists rest, s = ip ++ rest.
Proof.
  unfold ipv4_here. intros H.
  destruct (digits_dot s) as [[ga r1]|] eqn:E1; [|discriminate].
  destruct (digits_dot r1) as [[gb r2]|] eqn:E2; [|discriminate].
  destruct (digits_dot r2) as [[gc r3]|] eqn:E3; [|discriminate].
  destruct (digits1 r3) as [[d r4]|] eqn:E4; [|discriminate].
  injection H as <-.
  destruct (digits_dot_spec _ _ _ E1) as (a & -> & Hs1 & Ha).
  destruct (digits_dot_spec _ _ _ E2) as (b & -> & Hs2 & Hb).
  destruct (digits_dot_spec _ _ _ E3) as (c & -> & Hs3 & Hc).
  destruct (digits1_spec _ _ _ E4) as (Hs4 & Hd).
  split.
  - exists a, b, c, d. split; [|exact (conj Ha (conj Hb (conj Hc Hd)))].
    now rewrite !append_assoc.
  - exists r4. rewrite Hs1, Hs2, Hs3, Hs4. now rewrite !append_assoc.
Qed.

Lemma ipMatch_sound (candidate ip : string) :
  ipMatch candidate = Some ip ->
  dotted_quad ip /\ exists before after, candidate = before ++ ip ++ after.
Proof.
  induction candidate as [|c s IH]; intros H.
  - cbn in H. discriminate.
  - cbn [ipMatch] in H.
    destruct (ipv4_here (String c s)) as [ip'|] eqn:E.
    + injection H as <-. destruct (ipv4_here_spec _ _ E) as [Hq [rest Hs]].
      split; [exact Hq|]. exists "", rest. exact Hs.
    + destruct (IH H) as [Hq (before & after & Hs)].
      split; [exact Hq|]. exists (String c before), after. cbn. now rewrite Hs.
Qed.

(** X13. What [ipMatch] (the regular expression of
    [detectNetworkInfo]) returns is a piece of the candidate line made of
    four groups of digits with points between them. Nothing else is asked
    of it: the groups may have any length and value. *)
Theorem ipMatch_returns_a_dotted_quad (candidate ip : string) :
  ipMatch candidate = Some ip ->
  dotted_quad ip /\ exists before after, candidate = before ++ ip ++ after.
Proof. exact (ipMatch_sound candidate ip). Qed.

Example ipMatch_takes_any_numbers :
  ipMatch "candidate:1 1 udp 1 999.0.00.123456 9 typ host" = Some "999.0.00.123456".
Proof. reflexivity. Qed.

Lemma first_ip_sound (candidates : list string) (ip : string) :
  first_ip candidates = Some ip ->
  exists candidate, In candidate candidates /\ ipMatch candidate = Some ip.
Proof.
  induction candidates as [|c rest IH]; intros H; [discriminate|].
  cbn in H. destruct (ipMatch c) as [ip'|] eqn:E.
  - injection H as <-. exists c. split; [now left | exact E].
  - destruct (IH H) as (c' & Hin & Hc). exists c'. split; [now right | exact Hc].
Qed.

(* --------------------------------------------------------------------- *)
(** ** Detection and startup *)
(* --------------------------------------------------------------------- *)

Lemma shareUrl_updateNetworkStatus (message kind : string) (a : App) :
  shareUrl (dom (updateNetworkStatus message kind a)) = shareUrl (dom a).
Proof.
  unfold updateNetworkStatus. destruct (serverUrl a); reflexivity.
Qed.

Section Detection.
Context {W : Type}.
Variable net : Request -> W -> W * FetchOutcome.
Variable random : nat -> string.

Lemma askServer_no_address_frame (a : App) (w w' : W) (answer : FetchOutcome) :
net networkInfoRequest w = (w', answer) ->
no_server_address answer ->
exists a',
  askServer net (a, w) = Ok false (a', w') /\
  serverPort a' = serverPort a /\ timers a' = timers a.
Proof.
intros Hnet Hno. unfold askServer. open_monad.
fold networkInfoRequest. rewrite Hnet.
destruct answer as [r | e |]; cbn in Hno; [| | contradiction].
- destruct (ok r) eqn:Eok.
  + destruct Hno as [Hno | [Hno | Hno]]; [discriminate | |].
    * rewrite Hno. cbn. eexists. repeat split.
    * rewrite Hno. destruct (complete r); cbn; eexists; repeat split.
  + cbn. eexists. repeat split.
- cbn. eexists. repeat split.
Qed.

(** X14. When the server gives no address and an ICE candidate shows
  one, [detectNetworkInfo] returns with that address (a dotted quad) and
  the port as the server URL, but its five-second timer is still to run;
  when it runs, the server URL is replaced by the localhost one and the
  status line by the "network detection failed" warning. *)
Theorem detected_address_is_replaced_when_the_timer_runs
  (a : App) (w w' : W) (answer : FetchOutcome) (candidates : list string)
  (ip : string) :
net networkInfoRequest w = (w', answer) ->
no_server_address answer ->
first_ip candidates = Some ip ->
timers a = [] ->
exists a',
  detectNetworkInfo net (RtcCandidates candidates) (a, w) = Ok tt (a', w') /\
  dotted_quad ip /\
  serverUrl a' = "http://" ++ ip ++ ":" ++ N_toString (serverPort a) /\
  networkStatus (dom a') = ("Connected to local network", "success") /\
  timers a' = [DetectTimeout] /\
  let later := fst (state_of (handle net random TimerFired (a', w'))) in
  serverUrl later = "http://localhost:" ++ N_toString (serverPort a) /\
  networkStatus (dom later)
  = ("Using localhost - network detection failed", "warning").
Proof.
intros Hnet Hno Hip Ht.
destruct (askServer_no_address_frame a w w' answer Hnet Hno) as (a1 & E1 & Hp & Ht1).
destruct (first_ip_sound _ _ Hip) as (c & _ & Hc).
destruct (ipMatch_sound _ _ Hc) as [Hq _].
unfold detectNetworkInfo, bind. rewrite E1. unfold askWebRTC. open_monad.
rewrite Hip. cbn [fst snd]. eexists. split; [reflexivity|].
split; [exact Hq|].
split; [cbn; now rewrite Hp|].
split; [cbn [add_timer set_timers dom]; apply networkStatus_updated|].
split; [cbn; now rewrite Ht1, Ht|].
cbn [handle]. unfold modify. cbn [fst snd state_of].
cbn [timers add_timer set_timers updateNetworkStatus set_dom set_serverUrl].
rewrite Ht1, Ht. cbn [app run_timer].
split.
- cbn. unfold localhostUrl. cbn. now rewrite Hp.
- apply networkStatus_updated.
Qed.

(** X15. When the server answers the address request with a 2xx status
  and a JSON body, [detectNetworkInfo] takes [server_url] from it (the
  empty text when the member is missing) and reports "Connected to local
  network"; WebRTC is not consulted and no timer is set. *)
Theorem detection_takes_the_server_address
  (rtc : Rtc) (a : App) (w w' : W) (r : Response) (info : Json) :
net networkInfoRequest w = (w', Resolved r) ->
ok r = true ->
complete r = true ->
parsed r = Some info ->
exists a',
  detectNetworkInfo net rtc (a, w) = Ok tt (a', w') /\
  serverUrl a' = match json_server_url info with Some u => u | None => "" end /\
  networkStatus (dom a') = ("Connected to local network", "success") /\
  timers a' = timers a /\
  log a' = (log a ++ [Fetch networkInfoRequest])%list.
Proof.
intros Hnet Hok Hc Hp. unfold detectNetworkInfo, askServer. open_monad.
fold networkInfoRequest. rewrite Hnet. cbn [fst snd]. rewrite Hok, Hc, Hp.
cbn [fst snd]. eexists. split; [reflexivity|].
split; [reflexivity|]. split; [apply networkStatus_updated|].
split; reflexivity.
Qed.

(** X16. On a browser without [RTCPeerConnection], once the address
  request has settled, [init] ends by throwing: [setupPeerConnection]
  is not guarded, so no data channel is made and [startHostMode] is
  never reached (the share panel is as it was), whether or not the
  server supplied the address. *)
Theorem init_throws_without_WebRTC (a : App) (w : W) :
snd (net networkInfoRequest w) <> Pending ->
exists e s,
  init net RtcUnavailable (a, w) = Throw e s /\
  dataChannel (fst s) = dataChannel a /\
  shareUrl (dom (fst s)) = shareUrl (dom a) /\
  fst (networkStatus (dom (fst s))) <> "Server running - Ready to share files".
Proof.
intros Hs. unfold init, detectNetworkInfo, askServer, askWebRTC, setupPeerConnection.
open_monad. fold networkInfoRequest.
destruct (net networkInfoRequest w) as [w1 [r | e |]]; cbn [fst snd] in *;
  [| |congruence].
- destruct (ok r); cbn [fst snd];
    [destruct (complete r); cbn [fst snd];
     [destruct (parsed r); cbn [fst snd]|]|];
    eexists; eexists; (split; [reflexivity|]);
    (split; [reflexivity|]);
    repeat (first [ rewrite shareUrl_updateNetworkStatus
                  | rewrite networkStatus_updated
                  | progress cbn [dom set_serverUrl emit set_log fst snd] ]);
    (split; [reflexivity | discriminate]).
- eexists. eexists. split; [reflexivity|]. split; [reflexivity|].
  repeat (first [ rewrite shareUrl_updateNetworkStatus
                | rewrite networkStatus_updated
                | progress cbn [dom set_serverUrl emit set_log fst snd] ]).
  split; [reflexivity | discriminate].
Qed.


End Detection.

(* --------------------------------------------------------------------- *)
(** ** Sizes below 1 KB *)
(* --------------------------------------------------------------------- *)

(** X18. A size from 1 to 1023 bytes is shown as that number, without
    decimals, followed by "Bytes". *)
Theorem formatFileSize_below_1024 (bytes : N) :
  0 < bytes -> bytes < 1024 ->
  formatFileSize bytes = N_toString bytes ++ " Bytes".
Proof.
  intros Hpos Hlt. unfold formatFileSize.
  destruct (N.eqb_spec bytes 0) as [->|_]; [lia|].
  assert (Hi : log_floor k bytes = 0).
  { unfold log_floor, k. change (N.log2 1024) with 10.
    apply N.div_small. apply N.log2_lt_pow2; [assumption|]. exact Hlt. }
  rewrite Hi. change (k ^ 0) with 1. change (sizes_at 0) with "Bytes".
  assert (Hn : toFixed2 bytes 1 = 100 * bytes).
  { unfold toFixed2. replace (200 * bytes + 1) with (1 + (100 * bytes) * (2 * 1)) by lia.
    rewrite N.div_add by lia. reflexivity. }
  rewrite Hn. unfold hundredths_toString.
  replace (100 * bytes) with (bytes * 100) by lia.
  rewrite N.div_mul, N.Div0.mod_mul by lia. reflexivity.
Qed.

(* --------------------------------------------------------------------- *)
(** ** Copying the share URL *)
(* --------------------------------------------------------------------- *)

Lemma copy_blank_test (value : string) :
  match value with
  | EmptyString => true
  | _ => String.eqb (trim value) ""
  end = String.eqb (trim value) "".
Proof. now destruct value. Qed.

(** X19. [copyShareUrl] shows exactly one toast. With an empty or
    blank value it is the "No URL to copy" error and nothing is copied.
    Otherwise an error toast appears only when [execCommand] throws on the
    path taken; in particular, when [execCommand] refuses without
    throwing the page says "URL copied to clipboard!" although nothing
    was copied. Whatever is copied is the value of the input. *)
Theorem copyShareUrl_reports (value : string) (clipboard : ClipboardAPI)
    (exec : ExecCommand) (a : App) :
  let page := fst (copyShareUrl value clipboard exec a) in
  let copied := snd (copyShareUrl value clipboard exec a) in
  exists toast,
    toasts (dom page) = (toasts (dom a) ++ [toast])%list /\
    files page = files a /\
    (copied = None \/ copied = Some value) /\
    if String.eqb (trim value) ""
    then toast = ("No URL to copy - please wait for server to start", "error")
         /\ copied = None
    else
      match clipboard, exec with
      | WriteResolves, _ | _, ExecCopies =>
          toast = ("URL copied to clipboard!", "success") /\ copied = Some value
      | _, ExecRefuses =>
          toast = ("URL copied to clipboard!", "success") /\ copied = None
      | _, ExecThrows => snd toast = "error" /\ copied = None
      end.
Proof.
  unfold copyShareUrl. rewrite copy_blank_test.
  destruct (String.eqb (trim value) "").
  - eexists. cbn. repeat split; auto.
  - destruct clipboard, exec; eexists; cbn; repeat split; auto.
Qed.

(* --------------------------------------------------------------------- *)
(** ** The service worker *)
(* --------------------------------------------------------------------- *)

Section JSMapLookup.
Context {V : Type}.

Lemma map_get_set_other (key other : string) (v : V) (m : JSMap V) :
other <> key -> map_get other (map_set key v m) = map_get other m.
Proof.
intros Hne. induction m as [|[k' v'] m IH]; cbn.
- destruct (String.eqb_spec key other); [congruence | reflexivity].
- destruct (String.eqb k' key) eqn:E; cbn.
  + apply String.eqb_eq in E. subst k'.
    destruct (String.eqb_spec key other); [congruence | reflexivity].
  + now rewrite IH.
Qed.

Lemma map_get_none_iff (key : string) (m : JSMap V) :
map_get key m = None <-> ~ In key (map_keys m).
Proof.
induction m as [|[k' v'] m IH]; cbn.
- tauto.
- destruct (String.eqb_spec k' key) as [->|Hne].
  + split; [discriminate | intros H; exfalso; apply H; now left].
  + rewrite IH. tauto.
Qed.

Lemma map_delete_is_filter (key : string) (m : JSMap V) :
map_delete key m = filter (fun e => negb (String.eqb (fst e) key)) m.
Proof.
induction m as [|[k' v'] m IH]; cbn; [reflexivity|].
destruct (String.eqb k' key); cbn; now rewrite IH.
Qed.
End JSMapLookup.

Module ServiceWorkerFacts.
Import ServiceWorker.

Lemma deletes_are_a_filter (names : list string) :
forall s : CacheStorage,
  fold_left (fun s name => if String.eqb name CACHE_NAME then s
                           else map_delete name s) names s
  = filter (fun e => negb (existsb (fun name => negb (String.eqb name CACHE_NAME)
                                                && String.eqb (fst e) name) names)) s.
Proof.
induction names as [|name rest IH]; intros s; cbn [fold_left existsb].
- induction s as [|e s IHs]; cbn; [reflexivity | now f_equal].
- rewrite IH. destruct (String.eqb name CACHE_NAME); cbn [negb andb orb].
  + reflexivity.
  + rewrite map_delete_is_filter.
    induction s as [|e s IHs]; cbn; [reflexivity|].
    destruct (String.eqb (fst e) name); cbn; [exact IHs|].
    destruct (existsb _ rest); cbn; now rewrite IHs.
Qed.

(** [activate] keeps the entries named [CACHE_NAME] and no others. *)
Lemma activate_is_a_filter (s : CacheStorage) :
activate s = filter (fun e => String.eqb (fst e) CACHE_NAME) s.
Proof.
unfold activate. rewrite deletes_are_a_filter.
apply filter_ext_in. intros [name c] Hin. cbn [fst].
destruct (String.eqb_spec name CACHE_NAME) as [->|Hne].
- assert (H : existsb (fun n => negb (String.eqb n CACHE_NAME)
                                && String.eqb CACHE_NAME n) (map_keys s) = false).
  { clear. induction (map_keys s) as [|n l IH]; cbn [existsb]; [reflexivity|].
    rewrite IH. rewrite (String.eqb_sym CACHE_NAME n).
    destruct (String.eqb n CACHE_NAME); reflexivity. }
  now rewrite H.
- assert (H : existsb (fun n => negb (String.eqb n CACHE_NAME)
                                && String.eqb name n) (map_keys s) = true).
  { apply existsb_exists. exists name. split.
    - unfold map_keys. apply in_map_iff. now exists (name, c).
    - rewrite String.eqb_refl. apply String.eqb_neq in Hne. now rewrite Hne. }
  now rewrite H.
Qed.

Lemma filter_current_cache (s : CacheStorage) :
NoDup (map_keys s) ->
filter (fun e => String.eqb (fst e) CACHE_NAME) s
= match map_get CACHE_NAME s with
  | Some c => [(CACHE_NAME, c)]
  | None => []
  end.
Proof.
induction s as [|[name c] s IH]; intros Hnd; [reflexivity|].
cbn [map_keys List.map fst] in Hnd. inversion Hnd as [|? ? Hnotin Hnd']; subst.
cbn [filter fst map_get].
destruct (String.eqb_spec name CACHE_NAME) as [->|Hne].
- rewrite IH by exact Hnd'.
  apply map_get_none_iff in Hnotin. now rewrite Hnotin.
- now apply IH.
Qed.

Lemma current_cache_after_activate (s : CacheStorage) (q : Request) :
NoDup (map_keys s) ->
map_get CACHE_NAME (activate s) = map_get CACHE_NAME s /\
(forall name, name <> CACHE_NAME -> map_get name (activate s) = None) /\
caches_match q (activate s)
= match map_get CACHE_NAME s with
  | Some c => cache_match q c
  | None => None
  end.
Proof.
intros Hnd. rewrite activate_is_a_filter, (filter_current_cache s Hnd).
destruct (map_get CACHE_NAME s) as [c|]; cbn [map_get caches_match].
- rewrite String.eqb_refl. split; [reflexivity|]. split.
  + intros name Hne. apply not_eq_sym in Hne.
    apply String.eqb_neq in Hne. now rewrite Hne.
  + now destruct (cache_match q c).
- repeat split.
Qed.

(** X20. After [activate], only the cache named [CACHE_NAME] is left,
  with its content untouched: a request is answered from the cache
  storage exactly if that cache holds it, and every other name is gone. *)
Theorem activate_leaves_only_the_current_cache (s : CacheStorage) (q : Request) :
NoDup (map_keys s) ->
map_get CACHE_NAME (activate s) = map_get CACHE_NAME s /\
(forall name, name <> CACHE_NAME -> map_get name (activate s) = None) /\
caches_match q (activate s)
= match map_get CACHE_NAME s with
  | Some c => cache_match q c
  | None => None
  end.
Proof. apply current_cache_after_activate. Qed.

Lemma caches_open_get (name other : string) (s : CacheStorage) :
map_get other (caches_open name s)
= if String.eqb other name
  then Some match map_get name s with Some c => c | None => [] end
  else map_get other s.
Proof.
unfold caches_open, map_has.
destruct (String.eqb_spec other name) as [->|Hne].
- destruct (map_get name s) eqn:E; [exact E | apply map_get_set_same].
- destruct (map_get name s); [reflexivity | now apply map_get_set_other].
Qed.

Lemma caches_open_keys (name : string) (s : CacheStorage) :
NoDup (map_keys s) -> NoDup (map_keys (caches_open name s)) /\
In name (map_keys (caches_open name s)).
Proof.
intros Hnd. unfold caches_open, map_has.
destruct (map_get name s) eqn:E.
- split; [exact Hnd|].
  destruct (in_dec string_dec name (map_keys s)) as [Hin|Hnot]; [exact Hin|].
  apply map_get_none_iff in Hnot. congruence.
- apply map_get_none_iff in E. rewrite (map_set_fresh name [] s E).
  unfold map_keys. rewrite map_app. cbn. split.
  + apply NoDup_app; [exact Hnd | repeat constructor; intros [] |].
    intros x Hin [<- | []]. contradiction.
  + apply in_or_app. right. now left.
Qed.

Lemma put_all_other (url : string) (entries : list (string * Response)) :
forall c : Cache,
  ~ In url (List.map fst entries) ->
  map_get url (put_all entries c) = map_get url c.
Proof.
induction entries as [|[u r] rest IH]; intros c Hnot; [reflexivity|].
cbn in Hnot. unfold put_all. cbn [fold_left].
fold (put_all rest (map_set u r c)).
rewrite IH by tauto. apply map_get_set_other. intros ->. tauto.
Qed.

Lemma put_all_get (url : string) (r : Response) (entries : list (string * Response)) :
forall c : Cache,
  NoDup (List.map fst entries) ->
  In (url, r) entries ->
  map_get url (put_all entries c) = Some r.
Proof.
induction entries as [|[u r'] rest IH]; intros c Hnd Hin; [contradiction|].
cbn in Hnd. inversion Hnd as [|? ? Hnotin Hnd']; subst.
unfold put_all. cbn [fold_left]. fold (put_all rest (map_set u r' c)).
destruct Hin as [Heq | Hin].
- injection Heq as -> ->. rewrite put_all_other by exact Hnotin.
  apply map_get_set_same.
- now apply IH.
Qed.

Lemma all_ok_urls (answers : list (string * FetchOutcome)) :
forall entries,
  all_ok answers = Some entries ->
  List.map fst entries = List.map fst answers.
Proof.
induction answers as [|[url out] rest IH]; intros entries H; cbn in H.
- injection H as <-. reflexivity.
- destruct out as [r | e |]; try discriminate.
  destruct (ok r); [|discriminate].
  destruct (all_ok rest) as [es|]; [|discriminate].
  injection H as <-. cbn. now rewrite (IH es eq_refl).
Qed.

Lemma all_ok_answers (answers : list (string * FetchOutcome)) :
forall entries url r,
  all_ok answers = Some entries ->
  In (url, r) entries -> In (url, Resolved r) answers /\ ok r = true.
Proof.
induction answers as [|[u out] rest IH]; intros entries url r H Hin; cbn in H.
- injection H as <-. contradiction.
- destruct out as [r0 | e |]; try discriminate.
  destruct (ok r0) eqn:Eok; [|discriminate].
  destruct (all_ok rest) as [es|] eqn:E; [|discriminate].
  injection H as <-. destruct Hin as [Heq | Hin].
  + injection Heq as -> ->. split; [now left | exact Eok].
  + destruct (IH es url r eq_refl Hin) as [H1 H2]. split; [now right | exact H2].
Qed.

Lemma some_failed_not_all_ok (answers : list (string * FetchOutcome)) :
some_failed answers = true -> all_ok answers = None.
Proof.
induction answers as [|[url out] rest IH]; intros H; [discriminate|].
cbn in H |- *. destruct out as [r | e |]; try reflexivity.
destruct (ok r); cbn in H; [|reflexivity].
now rewrite (IH H).
Qed.

Lemma append_inj_left (o p q : string) : o ++ p = o ++ q -> p = q.
Proof.
induction o as [|c o IH]; cbn; intros H; [exact H|].
injection H as H. now apply IH.
Qed.

Lemma append_ends (o p c : string) : o ++ p = c -> endsWith c p = true.
Proof. intros <-. apply endsWith_append. Qed.

(** The URLs [addAll] stores are pairwise distinct, whatever the
  origin. *)
Lemma resolved_urls_distinct (origin : string) :
NoDup (List.map (resolve origin) urlsToCache).
Proof.
cbn [List.map urlsToCache].
change (resolve origin "/") with (origin ++ "/").
change (resolve origin "/index.html") with (origin ++ "/index.html").
change (resolve origin "/style.css") with (origin ++ "/style.css").
change (resolve origin "/script.js") with (origin ++ "/script.js").
change (resolve origin "/manifest.json") with (origin ++ "/manifest.json").
change (resolve origin "https://cdn.jsdelivr.net/npm/qrcode@1.5.3/build/qrcode.min.js")
  with "https://cdn.jsdelivr.net/npm/qrcode@1.5.3/build/qrcode.min.js".
change (resolve origin "https://cdn.jsdelivr.net/npm/jsqr@1.4.0/dist/jsQR.js")
  with "https://cdn.jsdelivr.net/npm/jsqr@1.4.0/dist/jsQR.js".
repeat (constructor;
        [cbn [In]; intros H;
         repeat match type of H with
                | _ \/ _ => destruct H as [H | H]
                end;
         try contradiction;
         first [ apply append_inj_left in H; discriminate
               | apply append_ends in H; vm_compute in H; discriminate
               | symmetry in H; apply append_ends in H; vm_compute in H; discriminate
               | discriminate ]
        |]).
constructor.
Qed.

Section WorkerFacts.
Context {W : Type}.
Variable net : Request -> W -> W * FetchOutcome.
Variable origin : string.

Lemma fetch_all_urls (urls : list string) :
forall w, List.map fst (snd (fetch_all net origin urls w))
        = List.map (resolve origin) urls.
Proof.
induction urls as [|url rest IH]; intros w; cbn; [reflexivity|].
destruct (net _ w) as [w1 out]. specialize (IH w1).
destruct (fetch_all net origin rest w1) as [w2 outs]. cbn in IH |- *.
now rewrite IH.
Qed.

Lemma fetched_entries_distinct (w : W) (entries : list (string * Response)) :
all_ok (snd (fetch_all net origin urlsToCache w)) = Some entries ->
NoDup (List.map fst entries) /\
List.map fst entries = List.map (resolve origin) urlsToCache.
Proof.
intros H. rewrite (all_ok_urls _ _ H), fetch_all_urls.
split; [apply resolved_urls_distinct | reflexivity].
Qed.

(** X21. [install] takes all or nothing. When every URL of
[urlsToCache] is answered with a 2xx status, it returns and the cache
[CACHE_NAME] then holds, for each of them, the response just fetched;
when one of them is rejected or answered with another status, it
throws and no cache has gained an entry. Caches under other names are
not touched either way. *)
Theorem install_is_all_or_nothing (s : CacheStorage) (w : W) :
let answers := snd (fetch_all net origin urlsToCache w) in
let after := fst (state_of (install net origin (s, w))) in
(forall name, name <> CACHE_NAME -> map_get name after = map_get name s) /\
match all_ok answers with
| Some entries =>
  returned (install net origin (s, w)) = true /\
  exists cache,
    map_get CACHE_NAME after = Some cache /\
    forall url r, In (url, r) entries -> map_get url cache = Some r
| None =>
  returned (install net origin (s, w)) = false /\
  (some_failed answers = true -> threw (install net origin (s, w)) = true) /\
  map_get CACHE_NAME after
  = Some match map_get CACHE_NAME s with Some c => c | None => [] end
end.
Proof.
intros answers after. subst answers after. unfold install. cbn [fst snd].
destruct (fetch_all net origin urlsToCache w) as [w' answers] eqn:Ef.
assert (Hans : answers = snd (fetch_all net origin urlsToCache w)) by now rewrite Ef.
cbn [snd].
destruct (all_ok answers) as [entries|] eqn:Eok.
- cbn [state_of fst returned]. split.
+ intros name Hne. rewrite map_get_set_other by congruence.
  rewrite caches_open_get. apply String.eqb_neq in Hne. now rewrite Hne.
+ split; [reflexivity|]. eexists. split; [apply map_get_set_same|].
  intros url r Hin. apply put_all_get; [|exact Hin].
  rewrite Hans in Eok. exact (proj1 (fetched_entries_distinct w entries Eok)).
- assert (Hgen : forall r : Res (CacheStorage * W) unit,
           state_of r = (caches_open CACHE_NAME s, w') ->
           (forall name, name <> CACHE_NAME ->
              map_get name (fst (state_of r)) = map_get name s) /\
           map_get CACHE_NAME (fst (state_of r))
           = Some match map_get CACHE_NAME s with Some c => c | None => [] end).
{ intros r ->. cbn [fst]. split.
  - intros name Hne. rewrite caches_open_get.
    apply String.eqb_neq in Hne. now rewrite Hne.
  - rewrite caches_open_get. now rewrite String.eqb_refl. }
destruct (some_failed answers);
  match goal with
  | |- context [state_of ?r] => destruct (Hgen r eq_refl) as [H1 H2]
  end; cbn [state_of fst returned threw] in *;
  (split; [exact H1|]); repeat split; auto.
Qed.

(** X22. The page shell works offline. After an [install] in which
every URL was answered with a 2xx status, followed by [activate], a
GET for any URL of [urlsToCache] is answered by the [fetch] listener
with the response stored at install, without asking the network,
whatever state the network is in, and the cache storage stays as it
is. *)
Theorem installed_shell_is_served_from_cache
(s : CacheStorage) (w : W) (entries : list (string * Response))
(url : string) (r : Response)
(W2 : Type) (net2 : Request -> W2 -> W2 * FetchOutcome) (w2 : W2) :
NoDup (map_keys s) ->
all_ok (snd (fetch_all net origin urlsToCache w)) = Some entries ->
In (url, r) entries ->
let storage := activate (fst (state_of (install net origin (s, w)))) in
In url (List.map (resolve origin) urlsToCache) /\
onFetch net2 (mkRequest GET url None None) (storage, w2) = Ok r (storage, w2).
Proof.
intros Hnd Hok Hin storage.
destruct (fetched_entries_distinct w entries Hok) as [Hdist Hurls].
split.
{ rewrite <- Hurls. apply in_map_iff. now exists (url, r). }
unfold onFetch. cbn [fst snd].
assert (Hm : caches_match (mkRequest GET url None None) storage = Some r);
[|now rewrite Hm].
subst storage. unfold install. cbn [fst snd].
destruct (fetch_all net origin urlsToCache w) as [w' answers]. cbn [snd] in Hok.
rewrite Hok. cbn [state_of fst].
destruct (caches_open_keys CACHE_NAME s Hnd) as [Hnd1 Hin1].
match goal with
| |- caches_match ?q (activate ?st) = _ =>
  destruct (current_cache_after_activate st q) as (_ & _ & ->)
end.
- rewrite (map_set_keys_known CACHE_NAME _ _ Hin1). exact Hnd1.
- rewrite map_get_set_same. cbn [cache_match req_method req_url].
now apply put_all_get.
Qed.

(** X23. Nothing else is ever served from the cache. After a first
[install] (no cache named [CACHE_NAME] before) in which every URL was
answered with a 2xx status, followed by [activate], a request that is
not a GET, or whose URL is not among those of [urlsToCache] (such as
the [/api/...] calls of the page), is passed to the network: the
listener returns what the network returns, and stores nothing. *)
Theorem other_requests_go_to_the_network
(s : CacheStorage) (w : W) (entries : list (string * Response)) (q : Request)
(W2 : Type) (net2 : Request -> W2 -> W2 * FetchOutcome) (w2 : W2) :
NoDup (map_keys s) ->
map_get CACHE_NAME s = None ->
all_ok (snd (fetch_all net origin urlsToCache w)) = Some entries ->
req_method q <> GET \/ ~ In (req_url q) (List.map (resolve origin) urlsToCache) ->
let storage := activate (fst (state_of (install net origin (s, w)))) in
onFetch net2 q (storage, w2)
= match snd (net2 q w2) with
| Resolved r => Ok r (storage, fst (net2 q w2))
| Rejected e => Throw e (storage, fst (net2 q w2))
| Pending => Hang (storage, fst (net2 q w2))
end.
Proof.
intros Hnd Hfirst Hok Hq storage.
destruct (fetched_entries_distinct w entries Hok) as [Hdist Hurls].
unfold onFetch. cbn [fst snd].
assert (Hm : caches_match q storage = None).
{ subst storage. unfold install. cbn [fst snd].
destruct (fetch_all net origin urlsToCache w) as [w' answers]. cbn [snd] in Hok.
rewrite Hok. cbn [state_of fst].
destruct (caches_open_keys CACHE_NAME s Hnd) as [Hnd1 Hin1].
match goal with
| |- caches_match ?q (activate ?st) = _ =>
    destruct (current_cache_after_activate st q) as (_ & _ & ->)
end.
- rewrite (map_set_keys_known CACHE_NAME _ _ Hin1). exact Hnd1.
- rewrite map_get_set_same, caches_open_get, String.eqb_refl, Hfirst.
  unfold cache_match. destruct Hq as [Hmeth | Hurl].
  + destruct (req_method q); [congruence | reflexivity | reflexivity].
  + destruct (req_method q); try reflexivity.
    rewrite put_all_other; [reflexivity|]. now rewrite Hurls. }
rewrite Hm. destruct (net2 q w2) as [w3 [r | e |]]; reflexivity.
Qed.

End WorkerFacts.
End ServiceWorkerFacts.

(* --------------------------------------------------------------------- *)
(** ** The further properties at work *)
(* --------------------------------------------------------------------- *)

Lemma unreachable_settles : settles unreachable.
Proof. intros q w. cbn. discriminate. Qed.

Lemma answering_settles (r : Response) : settles (answering r).
Proof. intros q w. cbn. discriminate. Qed.


Lemma handleFiles_keeps_list_and_map_in_step_witness :
  list_mirrors_map
    (fst (state_of (handleFiles unreachable counting_draws [photo; notes]
                      (new_app desktop, tt)))).
Proof.
  apply (handleFiles_keeps_list_and_map_in_step unreachable counting_draws
           [photo; notes] (new_app desktop) tt unreachable_settles).
  - reflexivity.
  - cbn. repeat constructor; cbn; intuition discriminate.
Defined.

Lemma handleFiles_stalls_at_first_silent_upload_witness :
  exists a',
    handleFiles silent counting_draws [photo; notes] (new_app desktop, tt)
    = Hang (a', tt) /\
    map_keys (files a') = ["0zyo82mvy"] /\ fileList (dom a') = [].
Proof.
  destruct (handleFiles_stalls_at_first_silent_upload silent counting_draws photo [notes]
              (new_app desktop) tt tt eq_refl) as (a' & E & Hf & Hl & _).
  exists a'. split; [exact E|]. rewrite Hf, Hl. split; reflexivity.
Defined.

Lemma removeFile_rebuilds_the_page_witness :
  exists a' w',
    removeFile unreachable "k3x" (host_with_two_files, tt) = Ok tt (a', w') /\
    List.map item_id (fileList (dom a')) = ["p9q"] /\
    shareUrl (dom a') = Some "http://192.168.1.5:8080".
Proof.
  destruct (removeFile_rebuilds_the_page unreachable "k3x" host_with_two_files tt)
    as (a' & w' & E & Hl & _ & Hs & _).
  - cbn. discriminate.
  - exists a', w'. split; [exact E|]. rewrite Hl, Hs. split; reflexivity.
Defined.

Lemma removeFile_of_unknown_id_witness :
  files (fst (state_of (removeFile unreachable "zzz" (host_with_two_files, tt))))
  = [("k3x", photo); ("p9q", notes)].
Proof.
  exact (proj1 (removeFile_of_unknown_id unreachable "zzz" host_with_two_files tt
                  eq_refl)).
Defined.


Lemma loadAvailableFiles_shows_the_catalog_witness :
  exists a',
    loadAvailableFiles (answering catalog_answer) (client_of desktop "", tt)
    = Ok tt (a', tt) /\
    availableFiles (dom a')
    = [AvailableHeading;
       AvailableFile PictureIcon "photo.jpg" "5 Bytes" "k3x";
       AvailableFile MemoIcon "notes.txt" "3 Bytes" "p9q"] /\
    toasts (dom a') = [("Found 2 file(s) to download", "success")].
Proof.
  destruct (loadAvailableFiles_shows_the_catalog (answering catalog_answer)
              (client_of desktop "") tt tt catalog_answer
              (mkJson (Some two_entries) None) eq_refl eq_refl eq_refl)
    as (a' & E & Ha & Ht).
  exists a'. split; [exact E|]. rewrite Ha, Ht. split; reflexivity.
Defined.

Lemma download_goes_to_the_connected_host_witness :
  In (Fetch (mkRequest GET "http://192.168.1.5:8080/api/download/k3x" None None))
     (log (fst (run (answering catalog_answer) counting_draws
                  [HostUrlTyped " http://192.168.1.5:8080/ "; ConnectClicked;
                   DownloadClicked "k3x" "photo.jpg"]
                  (new_app desktop, tt)))).
Proof.
  assert (Hne : trim " http://192.168.1.5:8080/ " <> "")
    by (vm_compute; discriminate).
  pose proof (download_goes_to_the_connected_host (answering catalog_answer)
                counting_draws " http://192.168.1.5:8080/ " "k3x" "photo.jpg"
                (new_app desktop) tt tt catalog_answer Hne eq_refl eq_refl) as H.
  cbv zeta in H.
  change (isMobile (userAgent (new_app desktop))) with (isMobile desktop) in H.
  replace (isMobile desktop) with false in H by (vm_compute; reflexivity).
  exact H.
Defined.

Lemma download_without_length_still_saves_witness :
  exists a',
    downloadFile (answering lengthless_answer) "p9q" "notes.txt"
      (client_of desktop "", tt) = Ok tt (a', tt) /\
    log a'
    = [Console "Downloading from: /api/download/p9q";
       Fetch (mkRequest GET "/api/download/p9q" None None);
       Progress "p9q" RNaN; Progress "p9q" RNaN;
       Save "notes.txt" [Byte.x68; Byte.x69; Byte.x0a]].
Proof.
  destruct (download_without_length_still_saves (answering lengthless_answer)
              "p9q" "notes.txt" (client_of desktop "") tt tt lengthless_answer
              eq_refl eq_refl eq_refl eq_refl eq_refl) as (a' & E & Hl & _).
  exists a'. split; [exact E|]. rewrite Hl. reflexivity.
Defined.

Lemma repeated_download_leaves_its_bar_at_zero_witness :
  exists a' items,
    downloadFile (answering lengthless_answer) "p9q" "notes.txt"
      (appendProgressItem (mkProgress "notes.txt" "p9q" "NaN%" "NaN%")
         (client_of desktop ""), tt) = Ok tt (a', tt) /\
    progressList (dom a') = (items ++ [mkProgress "notes.txt" "p9q" "0%" "0%"])%list.
Proof.
  destruct (repeated_download_leaves_its_bar_at_zero (answering lengthless_answer)
              "p9q" "notes.txt"
              (appendProgressItem (mkProgress "notes.txt" "p9q" "NaN%" "NaN%")
                 (client_of desktop "")) tt tt lengthless_answer)
    as (a' & items & E & Hp & _).
  - eexists. split; [left; reflexivity | reflexivity].
  - reflexivity.
  - reflexivity.
  - reflexivity.
  - reflexivity.
  - exists a', items. split; [exact E | exact Hp].
Defined.

Lemma isMobile_finds_the_word_in_any_case_witness :
  isMobile "Mozilla/5.0 (Linux; ANDROID 14; Pixel 8)" = true.
Proof.
  refine (isMobile_finds_the_word_in_any_case "Mozilla/5.0 (Linux; " "ANDROID"
            " 14; Pixel 8)" "android" _ eq_refl).
  right. left. reflexivity.
Defined.

Lemma ipMatch_returns_a_dotted_quad_witness :
  dotted_quad "192.168.1.23".
Proof.
  exact (proj1 (ipMatch_returns_a_dotted_quad
                  "candidate:1 1 udp 2122260223 192.168.1.23 54321 typ host"
                  "192.168.1.23" eq_refl)).
Defined.

Lemma detected_address_is_replaced_when_the_timer_runs_witness :
  exists a',
    detectNetworkInfo unreachable
      (RtcCandidates ["candidate:1 1 udp 2122260223 192.168.1.23 54321 typ host"])
      (new_app desktop, tt) = Ok tt (a', tt) /\
    serverUrl a' = "http://192.168.1.23:8080" /\
    serverUrl (fst (state_of (handle unreachable counting_draws TimerFired (a', tt))))
    = "http://localhost:8080".
Proof.
  destruct (detected_address_is_replaced_when_the_timer_runs unreachable counting_draws
              (new_app desktop) tt tt (Rejected "Failed to fetch")
              ["candidate:1 1 udp 2122260223 192.168.1.23 54321 typ host"]
              "192.168.1.23" eq_refl I eq_refl eq_refl)
    as (a' & E & _ & Hu & _ & _ & Hl & _).
  exists a'. split; [exact E|]. split; [exact Hu | exact Hl].
Defined.

Lemma detection_takes_the_server_address_witness :
  exists a',
    detectNetworkInfo (answering info_answer) RtcUnavailable (new_app desktop, tt)
    = Ok tt (a', tt) /\
    serverUrl a' = "http://192.168.1.5:8080".
Proof.
  destruct (detection_takes_the_server_address (answering info_answer) RtcUnavailable
              (new_app desktop) tt tt info_answer
              (mkJson None (Some "http://192.168.1.5:8080"))
              eq_refl eq_refl eq_refl eq_refl) as (a' & E & Hu & _).
  exists a'. split; [exact E | exact Hu].
Defined.

Lemma init_throws_without_WebRTC_witness :
  exists e s,
    init (answering info_answer) RtcUnavailable (new_app desktop, tt) = Throw e s /\
    dataChannel (fst s) = false.
Proof.
  destruct (init_throws_without_WebRTC (answering info_answer) (new_app desktop) tt)
    as (e & s & E & Hd & _).
  - cbn. discriminate.
  - exists e, s. split; [exact E | exact Hd].
Defined.

Lemma formatFileSize_below_1024_witness : formatFileSize 512 = "512 Bytes".
Proof.
  apply (formatFileSize_below_1024 512); reflexivity.
Defined.

Lemma old_storage_names_distinct : NoDup (map_keys old_storage).
Proof. cbn. repeat constructor; cbn; intuition discriminate. Qed.

Lemma activate_leaves_only_the_current_cache_witness :
  ServiceWorker.caches_match
    (mkRequest GET "http://192.168.1.5:8080/api/files" None None)
    (ServiceWorker.activate old_storage) = None.
Proof.
  exact (proj2 (proj2 (ServiceWorkerFacts.activate_leaves_only_the_current_cache
                         old_storage
                         (mkRequest GET "http://192.168.1.5:8080/api/files" None None)
                         old_storage_names_distinct))).
Defined.

Lemma install_is_all_or_nothing_witness :
  map_get "local-file-share-v0"
    (fst (state_of (ServiceWorker.install unreachable "http://192.168.1.5:8080"
                      (old_storage, tt))))
  = map_get "local-file-share-v0" old_storage.
Proof.
  refine (proj1 (ServiceWorkerFacts.install_is_all_or_nothing unreachable
                   "http://192.168.1.5:8080" old_storage tt) "local-file-share-v0" _).
  discriminate.
Defined.

Lemma installed_shell_is_served_from_cache_witness :
  ServiceWorker.onFetch unreachable
    (mkRequest GET "http://192.168.1.5:8080/script.js" None None)
    (ServiceWorker.activate
       (fst (state_of (ServiceWorker.install (answering shell_answer)
                         "http://192.168.1.5:8080" (old_storage, tt)))), tt)
  = Ok shell_answer
       (ServiceWorker.activate
          (fst (state_of (ServiceWorker.install (answering shell_answer)
                            "http://192.168.1.5:8080" (old_storage, tt)))), tt).
Proof.
  refine (proj2 (ServiceWorkerFacts.installed_shell_is_served_from_cache
                   (answering shell_answer) "http://192.168.1.5:8080" old_storage tt
                   _ "http://192.168.1.5:8080/script.js" shell_answer
                   unit unreachable tt old_storage_names_distinct eq_refl _)).
  cbn. right. right. right. left. reflexivity.
Defined.

Lemma other_requests_go_to_the_network_witness :
  ServiceWorker.onFetch (answering catalog_answer)
    (mkRequest GET "http://192.168.1.5:8080/api/files" None None)
    (ServiceWorker.activate
       (fst (state_of (ServiceWorker.install (answering shell_answer)
                         "http://192.168.1.5:8080" ([], tt)))), tt)
  = Ok catalog_answer
       (ServiceWorker.activate
          (fst (state_of (ServiceWorker.install (answering shell_answer)
                            "http://192.168.1.5:8080" ([], tt)))), tt).
Proof.
  refine (ServiceWorkerFacts.other_requests_go_to_the_network
            (answering shell_answer) "http://192.168.1.5:8080" [] tt
            _ (mkRequest GET "http://192.168.1.5:8080/api/files" None None)
            unit (answering catalog_answer) tt _ eq_refl eq_refl _).
  - constructor.
  - right. cbn. intuition discriminate.
Defined.
